(** * Enforcer rules of the cascades planner

    A shallow embedding of [pkg/planner/cascades/old/enforcer_rules.go]:
    [GetEnforcerRules] and the three methods of [OrderEnforcer]
    ([NewProperty], [OnEnforce], [GetEnforceCost]), together with the
    parts of the packages they import that the code touches.

    Conventions of the embedding.
    - A Go package is a [Module] of the same name.
    - A [float64] is modelled by the rational it denotes.  The file under
      study performs no floating-point arithmetic: it stores the constant
      [math.MaxFloat64] and hands the group's row count to the cost
      function.  NaN and the infinities are outside the model.
    - A pointer that the code dereferences without a test is modelled by
      the value it points to; a pointer the code sets to [nil] itself is an
      [option].  Containers keep their emptiness: [Front] of an empty list
      is the nil element, and reading through it panics.
    - A run-time panic is the [Panic] result of the [result] monad. *)

From Stdlib Require Import List ZArith QArith Qminmax Bool String Ascii Lia Lqa.
From stdpp Require Import base gmap strings.
Import ListNotations.

Set Warnings "-register-all".
Local Open Scope Q_scope.

(** ** Go run time: panics as results *)

Inductive panic : Type :=
| NilPointerDereference
| IndexOutOfRange.

Inductive result (A : Type) : Type :=
| Ok (a : A)
| Panic (p : panic).

Arguments Ok {A} a.
Arguments Panic {A} p.

Definition bind {A B : Type} (r : result A) (k : A -> result B) : result B :=
  match r with
  | Ok a => k a
  | Panic p => Panic p
  end.

Notation "x <- r ;; k" := (bind r (fun x => k))
  (at level 62, r at next level, right associativity).

(** Reading a field through a pointer: the nil pointer panics. *)
Definition deref {A : Type} (ptr : option A) : result A :=
  match ptr with
  | Some a => Ok a
  | None => Panic NilPointerDereference
  end.

Definition float64 : Type := Q.

Module math.
(** [math.MaxFloat64] = (2 - 2^-52) * 2^1023 = 2^1024 - 2^971. *)
Definition MaxFloat64 : float64 := inject_Z (2 ^ 1024 - 2 ^ 971).
End math.

(** ** [container/list] *)

Module container_list.
(** [l.Front()] returns the first element, or nil when the list is empty. *)
Definition Front {A : Type} (l : list A) : option A :=
  match l with
  | [] => None
  | e :: _ => Some e
  end.

Definition Len {A : Type} (l : list A) : nat := List.length l.
End container_list.

(** ** Package [expression] *)

Module expression.
Record Column : Type := { UniqueID : Z }.

(** The [Expression] interface; a [*Column] is one of its implementers. *)
Inductive Expression : Type :=
| ColumnExpr (c : Column)
| ConstantExpr (v : Z)
| ScalarFunction (name : string) (args : list Expression).

Record Schema : Type := { Columns : list Column }.

Definition Len (s : Schema) : nat := List.length (Columns s).
End expression.

(** ** Package [pattern] *)

Module pattern.
(** Modelled from the spec: the engine-affinity tag of a group.  The
    package is defined outside the file modelled here; the code names only
    [EngineTiDB] and compares tags for equality. *)
Inductive EngineType : Type :=
| EngineTiDB
| EngineTiKV
| EngineTiFlash.

Definition eqb (a b : EngineType) : bool :=
  match a, b with
  | EngineTiDB, EngineTiDB => true
  | EngineTiKV, EngineTiKV => true
  | EngineTiFlash, EngineTiFlash => true
  | _, _ => false
  end.
End pattern.

(** ** Package [property] *)

Module property.
Record SortItem : Type := {
  Col : expression.Column;
  Desc : bool
}.

(** Modelled from the spec: a physical property is the ordered sort items
    and the expected row count; these are also the only two fields the
    code reads or writes. *)
Record PhysicalProperty : Type := {
  SortItems : list SortItem;
  ExpectedCnt : float64
}.

(** Modelled from the spec: "a non-empty sort-item list" is the negation
    of this test, whose body is defined outside the file modelled here. *)
Definition IsSortItemEmpty (p : PhysicalProperty) : bool :=
  match SortItems p with
  | [] => true
  | _ :: _ => false
  end.

Record StatsInfo : Type := { RowCount : float64 }.

Record LogicalProperty : Type := {
  Stats : StatsInfo;
  Schema : expression.Schema
}.
End property.

(** ** Package [base]: plans and their session context *)

Module base.
(** The session context a plan was built in; the code only passes it on. *)
Record PlanContext : Type := { ConnectionID : Z }.

Record LogicalPlan : Type := {
  LogicalTp : string;
  LogicalSCtx : PlanContext
}.

(** What every physical operator carries, over the type [P] of its
    children. *)
Record BasePhysicalPlan (P : Type) : Type := {
  ctx : PlanContext;
  stats : property.StatsInfo;
  blockOffset : Z;
  childrenReqProps : list (option property.PhysicalProperty);
  children : list P
}.

Arguments ctx {P} _.
Arguments stats {P} _.
Arguments blockOffset {P} _.
Arguments childrenReqProps {P} _.
Arguments children {P} _.
End base.

Module util.
Record ByItems : Type := {
  Expr : expression.Expression;
  Desc : bool
}.
End util.

(** ** Package [physicalop] *)

Module physicalop.
(** The [PhysicalPlan] interface as the closed set of operators the
    enforcer meets: the sort it builds and whatever is below it. *)
Inductive PhysicalPlan : Type :=
| SortPlan (b : base.BasePhysicalPlan PhysicalPlan) (items : list util.ByItems)
| OtherPlan (tp : string) (b : base.BasePhysicalPlan PhysicalPlan).

Definition basePlan (p : PhysicalPlan) : base.BasePhysicalPlan PhysicalPlan :=
  match p with
  | SortPlan b _ => b
  | OtherPlan _ b => b
  end.

Definition SCtx (p : PhysicalPlan) : base.PlanContext := base.ctx (basePlan p).
Definition StatsInfo (p : PhysicalPlan) : property.StatsInfo := base.stats (basePlan p).
Definition QueryBlockOffset (p : PhysicalPlan) : Z := base.blockOffset (basePlan p).
Definition Children (p : PhysicalPlan) : list PhysicalPlan := base.children (basePlan p).

Record PhysicalSort : Type := {
  BasePlan : base.BasePhysicalPlan PhysicalPlan;
  ByItems : list util.ByItems
}.

(** A [*PhysicalSort] used where a [PhysicalPlan] is expected. *)
Definition asPlan (s : PhysicalSort) : PhysicalPlan :=
  SortPlan (BasePlan s) (ByItems s).

(** Modelled from the spec: [PhysicalSort.Init] is defined outside the
    file modelled here.  Its receiver is the composite literal, of which
    only [ByItems] can be set; the operator it returns records the
    session context, the statistics, the block offset and the properties
    it was given (the variadic last argument, one entry per property,
    a nil entry being [None]), and has no child yet. *)
Definition Init (byItems : list util.ByItems) (sctx : base.PlanContext)
    (st : property.StatsInfo) (offset : Z)
    (props : list (option property.PhysicalProperty)) : PhysicalSort :=
  {| BasePlan := {| base.ctx := sctx;
                    base.stats := st;
                    base.blockOffset := offset;
                    base.childrenReqProps := props;
                    base.children := [] |};
     ByItems := byItems |}.

Definition setByItems (s : PhysicalSort) (items : list util.ByItems) : PhysicalSort :=
  {| BasePlan := BasePlan s; ByItems := items |}.

Definition SetChildren (p : PhysicalPlan) (cs : list PhysicalPlan) : PhysicalPlan :=
  let withChildren (b : base.BasePhysicalPlan PhysicalPlan) :=
    {| base.ctx := base.ctx b;
       base.stats := base.stats b;
       base.blockOffset := base.blockOffset b;
       base.childrenReqProps := base.childrenReqProps b;
       base.children := cs |} in
  match p with
  | SortPlan b items => SortPlan (withChildren b) items
  | OtherPlan tp b => OtherPlan tp (withChildren b)
  end.

(** The cost of a sort, [PhysicalSort.GetCost], is defined outside the
    file modelled here.  It is taken as given: for a session, a function of
    the row count and of the width of the schema. *)
Class SortCostModel : Type := {
  sortCost : base.PlanContext -> float64 -> nat -> float64
}.

(** Modelled from the spec: the contract of a valid cost model for the
    missing [PhysicalSort.GetCost].  The cost is never negative, is
    strictly positive when the row count exceeds 1, and does not decrease
    when the row count or the width of the schema grows. *)
Record ValidSortCost (M : SortCostModel) : Prop := {
  sortCost_nonneg : forall sctx count width,
    0 <= sortCost sctx count width;
  sortCost_pos : forall sctx count width,
    1 < count -> 0 < sortCost sctx count width;
  sortCost_mono : forall sctx count1 count2 width1 width2,
    count1 <= count2 -> (width1 <= width2)%nat ->
    sortCost sctx count1 width1 <= sortCost sctx count2 width2
}.

Definition GetCost {M : SortCostModel} (p : PhysicalSort) (count : float64)
    (schema : expression.Schema) : float64 :=
  sortCost (base.ctx (BasePlan p)) count (expression.Len schema).
End physicalop.

(** ** Package [memo] *)

Module memo.
Record GroupExpr : Type := { ExprNode : base.LogicalPlan }.

Record Group : Type := {
  EngineType : pattern.EngineType;
  Equivalents : list GroupExpr;
  Prop_ : property.LogicalProperty  (* the field [Prop] *)
}.

(** The [Implementation] interface through its base implementer: a
    physical plan and the cost computed for it. *)
Record Implementation : Type := {
  plan : physicalop.PhysicalPlan;
  cost : float64
}.

Definition GetPlan (impl : Implementation) : physicalop.PhysicalPlan := plan impl.
End memo.

(** ** Package [implementation] *)

Module implementation.
(** Modelled from the spec: [NewSortImpl] wraps the sort operator; no
    cost has been computed for it yet. *)
Definition NewSortImpl (sort : physicalop.PhysicalSort) : memo.Implementation :=
  {| memo.plan := physicalop.asPlan sort; memo.cost := 0 |}.

(** Modelled from the spec: [AttachChildren] makes the plan of the first
    child implementation the single input of the wrapped operator.  It
    is variadic and indexes its argument at 0. *)
Definition AttachChildren (impl : memo.Implementation)
    (children : list memo.Implementation) : result memo.Implementation :=
  match children with
  | [] => Panic IndexOutOfRange
  | child :: _ =>
      Ok {| memo.plan := physicalop.SetChildren (memo.plan impl) [memo.GetPlan child];
            memo.cost := memo.cost impl |}
  end.
End implementation.

(** ** Package [old]: the enforcer rules *)

Module old.
(** The [Enforcer] interface: an enforcer is the record of its methods. *)
Record Enforcer : Type := {
  NewProperty : property.PhysicalProperty -> property.PhysicalProperty;
  OnEnforce : property.PhysicalProperty -> memo.Implementation ->
              result memo.Implementation;
  GetEnforceCost : memo.Group -> result float64
}.

(** The methods of [*OrderEnforcer]. *)
Module OrderEnforcer.
Definition NewProperty (_ : property.PhysicalProperty) : property.PhysicalProperty :=
  {| property.SortItems := [];
     property.ExpectedCnt := math.MaxFloat64 |}.

(** One turn of the loop of [OnEnforce]: the item is copied into a fresh
    [ByItems] and appended. *)
Definition appendItem (acc : list util.ByItems) (item : property.SortItem)
    : list util.ByItems :=
  acc ++ [ {| util.Expr := expression.ColumnExpr (property.Col item);
              util.Desc := property.Desc item |} ].

Definition OnEnforce (reqProp : property.PhysicalProperty)
    (child : memo.Implementation) : result memo.Implementation :=
  let childPlan := memo.GetPlan child in
  let sort0 :=
    physicalop.Init [] (physicalop.SCtx childPlan)
      (physicalop.StatsInfo childPlan)
      (physicalop.QueryBlockOffset childPlan)
      [ Some {| property.SortItems := [];
                property.ExpectedCnt := math.MaxFloat64 |} ] in
  let sort :=
    physicalop.setByItems sort0
      (fold_left appendItem (property.SortItems reqProp)
                 (physicalop.ByItems sort0)) in
  implementation.AttachChildren (implementation.NewSortImpl sort) [child].

Definition GetEnforceCost {M : physicalop.SortCostModel} (g : memo.Group)
    : result float64 :=
  front <- deref (container_list.Front (memo.Equivalents g)) ;;
  let sctx := base.LogicalSCtx (memo.ExprNode front) in
  let sort :=
    physicalop.Init [] sctx (property.Stats (memo.Prop_ g)) 0 [None] in
  let cost :=
    physicalop.GetCost sort
      (property.RowCount (property.Stats (memo.Prop_ g)))
      (property.Schema (memo.Prop_ g)) in
  Ok cost.
End OrderEnforcer.

Section Rules.
Context {M : physicalop.SortCostModel}.

(** [var orderEnforcer = &OrderEnforcer{}]: the one instance, made once
    and never assigned again. *)
Definition orderEnforcer : Enforcer :=
  {| NewProperty := OrderEnforcer.NewProperty;
     OnEnforce := OrderEnforcer.OnEnforce;
     GetEnforceCost := OrderEnforcer.GetEnforceCost |}.

Definition GetEnforcerRules (g : memo.Group) (prop : property.PhysicalProperty)
    : list Enforcer :=
  let enforcers : list Enforcer := [] in
  if negb (pattern.eqb (memo.EngineType g) pattern.EngineTiDB) then
    enforcers
  else if negb (property.IsSortItemEmpty prop) then
    enforcers ++ [orderEnforcer]
  else
    enforcers.
End Rules.
End old.

(** ** A cost model and a memo group to run the rules on *)

Module example.
(** A sort priced at (row count, at least 2) times (schema width + 1). *)
Definition linearSortCost (_ : base.PlanContext) (count : float64) (width : nat)
    : float64 :=
  Qmax count 2 * (inject_Z (Z.of_nat width) + 1).

Definition linearModel : physicalop.SortCostModel :=
  {| physicalop.sortCost := linearSortCost |}.

Definition sctx : base.PlanContext := {| base.ConnectionID := 7 |}.

Definition colA : expression.Column := {| expression.UniqueID := 1 |}.
Definition colB : expression.Column := {| expression.UniqueID := 2 |}.

Definition scan : memo.GroupExpr :=
  {| memo.ExprNode := {| base.LogicalTp := "DataSource";
                         base.LogicalSCtx := sctx |} |}.

(** Table [t] of the scenario in the spec: 1000 rows, one scan. *)
Definition groupOf (engine : pattern.EngineType) (rows : float64)
    (cols : list expression.Column) (exprs : list memo.GroupExpr) : memo.Group :=
  {| memo.EngineType := engine;
     memo.Equivalents := exprs;
     memo.Prop_ := {| property.Stats := {| property.RowCount := rows |};
                      property.Schema := {| expression.Columns := cols |} |} |}.

Definition G : memo.Group := groupOf pattern.EngineTiDB 1000 [colA] [scan].
Definition Gwide : memo.Group := groupOf pattern.EngineTiDB 5000 [colA; colB] [scan].
Definition Gtikv : memo.Group := groupOf pattern.EngineTiKV 1000 [colA] [scan].
Definition Gempty : memo.Group := groupOf pattern.EngineTiDB 1000 [colA] [].

(** Required order: [colA] ascending, then [colB] descending. *)
Definition byAB (cnt : float64) : property.PhysicalProperty :=
  {| property.SortItems := [ {| property.Col := colA; property.Desc := false |};
                             {| property.Col := colB; property.Desc := true |} ];
     property.ExpectedCnt := cnt |}.

Definition scanPlan : physicalop.PhysicalPlan :=
  physicalop.OtherPlan "TableReader"
    {| base.ctx := sctx;
       base.stats := {| property.RowCount := 1000 |};
       base.blockOffset := 1;
       base.childrenReqProps := [];
       base.children := [] |}.

Definition scanImpl : memo.Implementation :=
  {| memo.plan := scanPlan; memo.cost := 42 |}.

(** What [OnEnforce] builds over [scanImpl] for the order [byAB]. *)
Definition sortOverScan : memo.Implementation :=
  {| memo.plan :=
       physicalop.SortPlan
         {| base.ctx := sctx;
            base.stats := {| property.RowCount := 1000 |};
            base.blockOffset := 1;
            base.childrenReqProps :=
              [ Some {| property.SortItems := [];
                        property.ExpectedCnt := math.MaxFloat64 |} ];
            base.children := [scanPlan] |}
         [ {| util.Expr := expression.ColumnExpr colA; util.Desc := false |};
           {| util.Expr := expression.ColumnExpr colB; util.Desc := true |} ];
     memo.cost := 0 |}.
End example.

(** The properties recorded on the operator of an implementation. *)
Definition recordedProps (impl : memo.Implementation)
    : list (option property.PhysicalProperty) :=
  base.childrenReqProps (physicalop.basePlan (memo.plan impl)).

(** The sort key [OnEnforce] makes of a required sort item. *)
Definition sortKeyOf (item : property.SortItem) : util.ByItems :=
  {| util.Expr := expression.ColumnExpr (property.Col item);
     util.Desc := property.Desc item |}.

(** The sort keys of the operator of an implementation. *)
Definition sortKeys (impl : memo.Implementation) : list util.ByItems :=
  match memo.plan impl with
  | physicalop.SortPlan _ items => items
  | physicalop.OtherPlan _ _ => []
  end.

(** * The enforcer rules on a store

    The functions above take the objects their arguments point to.  Here
    they take the pointers, and the objects are in a store that each call
    reads and may write: a call is a function from the store before to a
    result and the store after.  A pointer is nil or an address; reading
    through nil panics, and so does reading an address that holds no
    object, which Go never hands out.  A composite literal taken by
    address is a new object at an address not in use.  The package
    variable [orderEnforcer] is part of the store. *)

Module store.
Definition addr : Type := positive.
Definition pointer : Type := option addr.

Record Store : Type := {
  groups : gmap addr memo.Group;
  properties : gmap addr property.PhysicalProperty;
  implementations : gmap addr memo.Implementation;
  orderEnforcerVar : pointer
}.

(** A call: the result, or the panic, and the store it leaves. *)
Definition M (A : Type) : Type := Store -> result A * Store.

Definition ret {A : Type} (a : A) : M A := fun s => (Ok a, s).

Definition bindM {A B : Type} (m : M A) (k : A -> M B) : M B :=
  fun s =>
    match m s with
    | (Ok a, s') => k a s'
    | (Panic p, s') => (Panic p, s')
    end.

Notation "x <~ m ;; k" := (bindM m (fun x => k))
  (at level 62, m at next level, right associativity).

(** A computation on values that reads and writes no store. *)
Definition lift {A : Type} (r : result A) : M A := fun s => (r, s).

Definition readAt {A : Type} (heap : gmap addr A) (p : pointer) : result A :=
  match p with
  | Some a => deref (heap !! a)
  | None => Panic NilPointerDereference
  end.

Definition loadGroup (p : pointer) : M memo.Group :=
  fun s => (readAt (groups s) p, s).

Definition loadProperty (p : pointer) : M property.PhysicalProperty :=
  fun s => (readAt (properties s) p, s).

Definition loadImplementation (p : pointer) : M memo.Implementation :=
  fun s => (readAt (implementations s) p, s).

Definition readOrderEnforcer : M pointer :=
  fun s => (Ok (orderEnforcerVar s), s).

(** [&property.PhysicalProperty{...}]: a new object. *)
Definition newProperty (v : property.PhysicalProperty) : M pointer :=
  fun s =>
    let a := fresh (dom (properties s)) in
    (Ok (Some a),
     {| groups := groups s;
        properties := <[a := v]> (properties s);
        implementations := implementations s;
        orderEnforcerVar := orderEnforcerVar s |}).

(** The implementation a call returns: a new object. *)
Definition newImplementation (v : memo.Implementation) : M pointer :=
  fun s =>
    let a := fresh (dom (implementations s)) in
    (Ok (Some a),
     {| groups := groups s;
        properties := properties s;
        implementations := <[a := v]> (implementations s);
        orderEnforcerVar := orderEnforcerVar s |}).

(** A value of the interface [Enforcer]: the type of the implementer and
    the pointer it was made from.  [*OrderEnforcer] is the one implementer. *)
Inductive EnforcerType : Type :=
| TypeOrderEnforcer.

Record EnforcerValue : Type := {
  dynamicType : EnforcerType;
  receiver : pointer
}.

Definition GetEnforcerRules (g prop : pointer) : M (list EnforcerValue) :=
  let enforcers : list EnforcerValue := [] in
  grp <~ loadGroup g ;;
  if negb (pattern.eqb (memo.EngineType grp) pattern.EngineTiDB) then
    ret enforcers
  else
    p <~ loadProperty prop ;;
    if negb (property.IsSortItemEmpty p) then
      e <~ readOrderEnforcer ;;
      ret (enforcers ++ [ {| dynamicType := TypeOrderEnforcer; receiver := e |} ])
    else
      ret enforcers.

(** The methods of [*OrderEnforcer]; none reads its receiver. *)
Definition NewProperty (this : pointer) (_ : pointer) : M pointer :=
  newProperty {| property.SortItems := [];
                 property.ExpectedCnt := math.MaxFloat64 |}.

Definition OnEnforce (this : pointer) (reqProp child : pointer) : M pointer :=
  c <~ loadImplementation child ;;
  req <~ loadProperty reqProp ;;
  impl <~ lift (old.OrderEnforcer.OnEnforce req c) ;;
  newImplementation impl.

Definition GetEnforceCost {C : physicalop.SortCostModel} (this : pointer)
    (g : pointer) : M float64 :=
  grp <~ loadGroup g ;;
  lift (old.OrderEnforcer.GetEnforceCost grp).

(** An invocation of one of the four functions, with its arguments. *)
Inductive invocation : Type :=
| CallGetEnforcerRules (g prop : pointer)
| CallNewProperty (this prop : pointer)
| CallOnEnforce (this reqProp child : pointer)
| CallGetEnforceCost (this g : pointer).

(** What an invocation returns, a returned pointer being replaced by the
    object it points to in the store the invocation leaves. *)
Inductive outcome : Type :=
| Rules (r : result (list EnforcerValue))
| Relaxed (r : result property.PhysicalProperty)
| Enforced (r : result memo.Implementation)
| Cost (r : result float64).

Definition invoke {C : physicalop.SortCostModel} (i : invocation) (s : Store)
    : outcome * Store :=
  match i with
  | CallGetEnforcerRules g prop =>
      let (r, s') := GetEnforcerRules g prop s in (Rules r, s')
  | CallNewProperty this prop =>
      let (r, s') := NewProperty this prop s in
      (Relaxed (p <- r ;; readAt (properties s') p), s')
  | CallOnEnforce this reqProp child =>
      let (r, s') := OnEnforce this reqProp child s in
      (Enforced (p <- r ;; readAt (implementations s') p), s')
  | CallGetEnforceCost this g =>
      let (r, s') := GetEnforceCost this g s in (Cost r, s')
  end.

(** The store after a run of invocations. *)
Definition run {C : physicalop.SortCostModel} (s : Store)
    (calls : list invocation) : Store :=
  fold_left (fun s i => (invoke i s).2) calls s.

(** A pointer is nil or the address of an object of the heap. *)
Definition allocated {A : Type} (heap : gmap addr A) (p : pointer) : Prop :=
  match p with
  | Some a => is_Some (heap !! a)
  | None => True
  end.

(** What a call may do to the store [s], leaving [s']: make new objects,
    and nothing else. *)
Definition preserved (s s' : Store) : Prop :=
  orderEnforcerVar s' = orderEnforcerVar s /\
  groups s' = groups s /\
  properties s ⊆ properties s' /\
  implementations s ⊆ implementations s'.

(** The pointers an invocation is given point into the store. *)
Definition argumentsIn (s : Store) (i : invocation) : Prop :=
  match i with
  | CallGetEnforcerRules g prop =>
      allocated (groups s) g /\ allocated (properties s) prop
  | CallNewProperty _ prop => allocated (properties s) prop
  | CallOnEnforce _ reqProp child =>
      allocated (properties s) reqProp /\ allocated (implementations s) child
  | CallGetEnforceCost _ g => allocated (groups s) g
  end.

(** A store with the group, the required order and the scan of the
    example, each at address 1, and the enforcer of the package. *)
Definition sample : Store :=
  {| groups := <[1%positive := example.G]> ∅;
     properties := <[1%positive := example.byAB 10]> ∅;
     implementations := <[1%positive := example.scanImpl]> ∅;
     orderEnforcerVar := Some 1%positive |}.

Definition sampleCalls : list invocation :=
  [ CallNewProperty (Some 1%positive) (Some 1%positive);
    CallOnEnforce (Some 1%positive) (Some 1%positive) (Some 1%positive);
    CallGetEnforcerRules (Some 1%positive) (Some 1%positive) ].
End store.

(** * Memory accounting of the ingest backfill

    A shallow embedding of [pkg/ddl/ingest/mem_root.go].  An [int64] is an
    integer kept in range by [int64_wrap], which is what Go's [+] and [-]
    do on overflow; the [map[string]int64] is a finite map.  Every method
    runs under the mutex of the receiver, so a method is one atomic step on
    the state it locks: the state is passed in and the new state returned. *)

Module ingest.
Local Open Scope Z_scope.

Definition MinInt64 : Z := - 2 ^ 63.
Definition MaxInt64 : Z := 2 ^ 63 - 1.

Definition int64_range (z : Z) : Prop := MinInt64 <= z <= MaxInt64.

(** Two's complement wrap-around of the mathematical result. *)
Definition int64_wrap (z : Z) : Z := (z + 2 ^ 63) mod 2 ^ 64 - 2 ^ 63.

Record memRootImpl : Type := {
  maxLimit : Z;
  currUsage : Z;
  structSize : gmap string Z
}.

Definition NewMemRootImpl (maxQuota : Z) : memRootImpl :=
  {| maxLimit := maxQuota; currUsage := 0; structSize := ∅ |}.

Definition SetMaxMemoryQuota (m : memRootImpl) (maxQuota : Z) : memRootImpl :=
  {| maxLimit := maxQuota;
     currUsage := currUsage m;
     structSize := structSize m |}.

Definition MaxMemoryQuota (m : memRootImpl) : Z := maxLimit m.

Definition CurrentUsage (m : memRootImpl) : Z := currUsage m.

(** Reading a missing key of a Go map gives the zero value. *)
Definition CurrentUsageWithTag (m : memRootImpl) (tag : string) : Z :=
  default 0 (structSize m !! tag).

Definition Consume (m : memRootImpl) (size : Z) : memRootImpl :=
  {| maxLimit := maxLimit m;
     currUsage := int64_wrap (currUsage m + size);
     structSize := structSize m |}.

Definition Release (m : memRootImpl) (size : Z) : memRootImpl :=
  {| maxLimit := maxLimit m;
     currUsage := int64_wrap (currUsage m - size);
     structSize := structSize m |}.

Definition ConsumeWithTag (m : memRootImpl) (tag : string) (size : Z) : memRootImpl :=
  {| maxLimit := maxLimit m;
     currUsage := int64_wrap (currUsage m + size);
     structSize :=
       match structSize m !! tag with
       | Some s => <[tag := int64_wrap (s + size)]> (structSize m)
       | None => <[tag := size]> (structSize m)
       end |}.

Definition CheckConsume (m : memRootImpl) (size : Z) : bool :=
  int64_wrap (currUsage m + size) <=? maxLimit m.

Definition ReleaseWithTag (m : memRootImpl) (tag : string) : memRootImpl :=
  {| maxLimit := maxLimit m;
     currUsage := int64_wrap (currUsage m - default 0 (structSize m !! tag));
     structSize := delete tag (structSize m) |}.

Definition RefreshConsumption (m : memRootImpl) : memRootImpl := m.

(** The calls a client can make on a [MemRoot], and a run of them. *)
Inductive call : Type :=
| CallConsume (size : Z)
| CallRelease (size : Z)
| CallCheckConsume (size : Z)
| CallConsumeWithTag (tag : string) (size : Z)
| CallReleaseWithTag (tag : string)
| CallSetMaxMemoryQuota (quota : Z)
| CallRefreshConsumption.

Definition step (m : memRootImpl) (c : call) : memRootImpl :=
  match c with
  | CallConsume size => Consume m size
  | CallRelease size => Release m size
  | CallCheckConsume _ => m
  | CallConsumeWithTag tag size => ConsumeWithTag m tag size
  | CallReleaseWithTag tag => ReleaseWithTag m tag
  | CallSetMaxMemoryQuota quota => SetMaxMemoryQuota m quota
  | CallRefreshConsumption => RefreshConsumption m
  end.

Definition run (m : memRootImpl) (cs : list call) : memRootImpl :=
  fold_left step cs m.

(** What the untagged calls of a run consume, net of what they release. *)
Definition untaggedNet (cs : list call) : Z :=
  fold_left (fun acc c =>
               match c with
               | CallConsume size => acc + size
               | CallRelease size => acc - size
               | _ => acc
               end) cs 0.

(** The sum of the sizes recorded under all tags. *)
Definition taggedTotal (m : memRootImpl) : Z :=
  map_fold (fun _ s acc => s + acc) 0 (structSize m).
End ingest.

(** * Configuration of the export tool

    A shallow embedding of the pure part of [dumpling/export/config.go]:
    the parsers of the command-line values and the adjusters of a
    [Config].  An [error] is its message, [nil] being [None]; a function
    that returns a value and an error returns the pair.  A function that
    changes the [*Config] it is given returns the changed [Config] beside
    its error. *)

Module strconv.
Local Open Scope Z_scope.

Inductive NumError : Type :=
| ErrSyntax
| ErrRange.

Definition MaxUint64 : Z := 2 ^ 64 - 1.

Definition uint64_wrap (z : Z) : Z := z mod 2 ^ 64.

(** The value of a decimal digit, [None] for any other byte. *)
Definition digitOf (c : ascii) : option Z :=
  let b := Z.of_N (N_of_ascii c) in
  if (48 <=? b) && (b <=? 57) then Some (b - 48) else None.

(** The loop of [ParseUint] for base 10 and 64 bits: [n] is the number read
    so far.  Any byte that is not a digit is a syntax error; a number
    beyond [MaxUint64] is a range error, found when the next digit is
    read. *)
Fixpoint parseUintLoop (s : string) (n : Z) : Z + NumError :=
  match s with
  | EmptyString => inl n
  | String c rest =>
      match digitOf c with
      | None => inr ErrSyntax
      | Some d =>
          if MaxUint64 / 10 + 1 <=? n then inr ErrRange
          else
            let n10 := uint64_wrap (n * 10) in
            let n1 := uint64_wrap (n10 + d) in
            if (n1 <? n10) || (MaxUint64 <? n1) then inr ErrRange
            else parseUintLoop rest n1
      end
  end.

(** [strconv.ParseUint(s, 10, 64)]. *)
Definition ParseUint (s : string) : Z + NumError :=
  match s with
  | EmptyString => inr ErrSyntax
  | _ => parseUintLoop s 0
  end.
End strconv.

Module strings_.
Local Open Scope Z_scope.

(** [strings.SplitN(s, ".", 2)] cuts [s] at its first dot: [cutDot] is the
    two halves, if there is a dot. *)
Fixpoint cutDot (s : string) : option (string * string) :=
  match s with
  | EmptyString => None
  | String c rest =>
      if Ascii.eqb c "."%char then Some (EmptyString, rest)
      else match cutDot rest with
           | Some (before, after) => Some (String c before, after)
           | None => None
           end
  end.

Definition SplitN_dot_2 (s : string) : list string :=
  match cutDot s with
  | Some (before, after) => [before; after]
  | None => [s]
  end.
End strings_.

Module export.
Local Open Scope Z_scope.

Definition error : Type := option string.

(** [errors.Errorf] with one [%s] verb, and [errors.New]. *)
Definition Errorf1 (before arg after : string) : error :=
  Some (before +:+ arg +:+ after).
Definition errorsNew (msg : string) : error := Some msg.

(** What the package takes from elsewhere and the code below uses: the
    case folding of [strings], the two file format names (constants of
    the package declared in another file), and the size parser of
    [go-units] ([None] when it returns an error). *)
Class Externals : Type := {
  ToLower : string -> string;
  FileFormatSQLTextString : string;
  FileFormatCSVString : string;
  RAMInBytes : string -> option Z
}.

(** What holds of them: the cases of a Go [switch] are distinct constants,
    and a format name that the folded [FileType] can match is folded. *)
Record ExternalsOk (E : Externals) : Prop := {
  sql_nonempty : FileFormatSQLTextString <> EmptyString;
  csv_nonempty : FileFormatCSVString <> EmptyString;
  sql_not_csv : FileFormatSQLTextString <> FileFormatCSVString;
  sql_folded : ToLower FileFormatSQLTextString = FileFormatSQLTextString;
  csv_folded : ToLower FileFormatCSVString = FileFormatCSVString
}.

Definition CSVDialect : Type := Z.
Definition CSVDialectDefault : CSVDialect := 0.
Definition CSVDialectSnowflake : CSVDialect := 1.
Definition CSVDialectRedshift : CSVDialect := 2.
Definition CSVDialectBigQuery : CSVDialect := 3.

Definition BinaryFormat : Type := Z.
Definition BinaryFormatUTF8 : BinaryFormat := 0.
Definition BinaryFormatHEX : BinaryFormat := 1.
Definition BinaryFormatBase64 : BinaryFormat := 2.

Definition DialectBinaryFormatMap : gmap Z Z :=
  <[CSVDialectDefault := BinaryFormatUTF8]>
    (<[CSVDialectSnowflake := BinaryFormatHEX]>
       (<[CSVDialectRedshift := BinaryFormatHEX]>
          (<[CSVDialectBigQuery := BinaryFormatBase64]> ∅))).

Definition UnspecifiedSize : Z := 0.
Definition MiB : Z := 1024 * 1024.
Definition DefaultTableFilter : string :=
  "!/^(mysql|sys|INFORMATION_SCHEMA|PERFORMANCE_SCHEMA|METRICS_SCHEMA|INSPECTION_SCHEMA)$/.*".

(** The fields of [Config] that the adjusters read or write. *)
Record Config : Type := {
  SQL : string;
  Where : string;
  FileType : string
}.

(** A line written to the standard output. *)
Inductive printed : Type :=
| WarnNoUnit (fileSizeMB : Z).

Definition ParseFileSize {E : Externals} (fileSizeStr : string)
    : (Z * error) * list printed :=
  if (String.length fileSizeStr =? 0)%nat then ((UnspecifiedSize, None), [])
  else match strconv.ParseUint fileSizeStr with
       | inl fileSizeMB =>
           ((strconv.uint64_wrap (fileSizeMB * MiB), None), [WarnNoUnit fileSizeMB])
       | inr _ =>
           match RAMInBytes fileSizeStr with
           | Some size => ((strconv.uint64_wrap size, None), [])
           | None =>
               ((0, Errorf1 "failed to parse filesize (-F '" fileSizeStr "')"), [])
           end
       end.

Definition ParseOutputDialect (outputDialect : string) : CSVDialect * error :=
  if String.eqb outputDialect "" || String.eqb outputDialect "default" then
    (CSVDialectDefault, None)
  else if String.eqb outputDialect "snowflake" then
    (CSVDialectSnowflake, None)
  else if String.eqb outputDialect "redshift" then
    (CSVDialectRedshift, None)
  else if String.eqb outputDialect "bigquery" then
    (CSVDialectBigQuery, None)
  else
    (CSVDialectDefault, Errorf1 "unknown output dialect " outputDialect "").
(** An adjuster changes the configuration in place and returns an error. *)
Definition adjuster : Type := Config -> Config * error.

(** [adjustConfig]: the adjusters run in order on the same [*Config], up
    to the first that returns an error. *)
Fixpoint adjustConfig (conf : Config) (fns : list adjuster) : Config * error :=
  match fns with
  | [] => (conf, None)
  | f :: rest =>
      match f conf with
      | (conf', Some err) => (conf', Some err)
      | (conf', None) => adjustConfig conf' rest
      end
  end.

Definition nonEmpty (s : string) : bool := negb (String.eqb s "").

Definition validateSpecifiedSQL (conf : Config) : Config * error :=
  if nonEmpty (SQL conf) && nonEmpty (Where conf) then
    (conf, errorsNew "can't specify both --sql and --where at the same time. Please try to combine them into --sql")
  else (conf, None).

Definition setFileType (conf : Config) (ft : string) : Config :=
  {| SQL := SQL conf; Where := Where conf; FileType := ft |}.

Definition adjustFileFormat {E : Externals} (conf : Config) : Config * error :=
  let conf := setFileType conf (ToLower (FileType conf)) in
  if String.eqb (FileType conf) "" then
    if nonEmpty (SQL conf) then (setFileType conf FileFormatCSVString, None)
    else (setFileType conf FileFormatSQLTextString, None)
  else if String.eqb (FileType conf) FileFormatSQLTextString then
    if nonEmpty (SQL conf) then
      (conf, Errorf1 "unsupported config.FileType '" (FileType conf)
                     "' when we specify --sql, please unset --filetype or set it to 'csv'")
    else (conf, None)
  else if String.eqb (FileType conf) FileFormatCSVString then
    (conf, None)
  else
    (conf, Errorf1 "unknown config.FileType '" (FileType conf) "'").

(** The kinds of table; the code below names only [TableTypeBase]. *)
Inductive TableType : Type :=
| TableTypeBase
| TableTypeView
| TableTypeSequence.

Record TableInfo : Type := {
  Name : string;
  AvgRowLength : Z;
  Type_ : TableType
}.

Definition lacksDot (table : string) : error :=
  Errorf1 "--tables-list only accepts qualified table names, but `" table "` lacks a dot".

(** The loop of [GetConfTables] over the tables still to read. *)
Fixpoint getConfTablesLoop (tablesList : list string)
    (dbTables : gmap string (list TableInfo))
    : option (gmap string (list TableInfo)) * error :=
  match tablesList with
  | [] => (Some dbTables, None)
  | tablename :: rest =>
      match strings_.SplitN_dot_2 tablename with
      | dbName :: tbName :: _ =>
          let avgRowLength := 0 in
          getConfTablesLoop rest
            (<[dbName := default [] (dbTables !! dbName) ++
                         [ {| Name := tbName; AvgRowLength := avgRowLength;
                              Type_ := TableTypeBase |} ] ]> dbTables)
      | _ => (None, lacksDot tablename)
      end
  end.

Definition GetConfTables (tablesList : list string)
    : option (gmap string (list TableInfo)) * error :=
  getConfTablesLoop tablesList ∅.

(** The table filter package: the type of filters, its parser and the
    filter of a list of tables. *)
Record Table : Type := {
  Schema : string;
  TableName : string  (* the field [Name] *)
}.

Class FilterPackage : Type := {
  Filter : Type;
  filterParse : list string -> option Filter * error;
  NewTablesFilter : list Table -> Filter
}.

(** The loop of [ParseTableFilter]; [tableNames] are the tables read. *)
Fixpoint tableNamesLoop (tablesList : list string) (tableNames : list Table)
    : option (list Table) * error :=
  match tablesList with
  | [] => (Some tableNames, None)
  | table :: rest =>
      match strings_.SplitN_dot_2 table with
      | schema :: name :: _ =>
          tableNamesLoop rest
            (tableNames ++ [ {| Schema := schema; TableName := name |} ])
      | _ => (None, lacksDot table)
      end
  end.

Definition stringsEqual (a b : list string) : bool :=
  bool_decide (a = b).

Definition ParseTableFilter {F : FilterPackage} (tablesList filters : list string)
    : option Filter * error :=
  if (List.length tablesList =? 0)%nat then filterParse filters
  else if negb (stringsEqual filters ["*.*"; DefaultTableFilter]) then
    (None, errorsNew "cannot pass --tables-list and --filter together")
  else
    match tableNamesLoop tablesList [] with
    | (Some tableNames, _) => (Some (NewTablesFilter tableNames), None)
    | (None, err) => (None, err)
    end.
End export.

(** ** Vocabulary of the properties *)

Section Vocabulary.
Local Open Scope Z_scope.

(** What a call adds to the untagged part of the usage. *)
Definition untaggedDelta (c : ingest.call) : Z :=
  match c with
  | ingest.CallConsume size => size
  | ingest.CallRelease size => - size
  | _ => 0
  end.

(** The number a string of decimal digits denotes, read from the left
    with [acc] the number read so far; [None] if a byte is not a digit. *)
Fixpoint decimalValue (s : string) (acc : Z) : option Z :=
  match s with
  | EmptyString => Some acc
  | String c rest =>
      match strconv.digitOf c with
      | Some d => decimalValue rest (acc * 10 + d)
      | None => None
      end
  end.

(** The names of the tables that [tablesList] gives for the database
    [db], in the order listed. *)
Fixpoint tablesOf (db : string) (tablesList : list string) : list string :=
  match tablesList with
  | [] => []
  | table :: rest =>
      match strings_.cutDot table with
      | Some (before, after) =>
          if String.eqb before db then after :: tablesOf db rest
          else tablesOf db rest
      | None => tablesOf db rest
      end
  end.

Definition baseTable (name : string) : export.TableInfo :=
  {| export.Name := name; export.AvgRowLength := 0;
     export.Type_ := export.TableTypeBase |}.

Definition qualifiedName (t : export.Table) : string :=
  export.Schema t +:+ "." +:+ export.TableName t.

End Vocabulary.

(** ** Sample states and inputs *)

Module samples.
Local Open Scope Z_scope.

(** A [MemRoot] at the top of [int64], with a quota of 100. *)
Definition full : ingest.memRootImpl :=
  {| ingest.maxLimit := 100;
     ingest.currUsage := ingest.MaxInt64;
     ingest.structSize := ∅ |}.

(** A [MemRoot] with 64 bytes under the tag "engine" and 36 untagged. *)
Definition busy : ingest.memRootImpl :=
  ingest.Consume (ingest.ConsumeWithTag (ingest.NewMemRootImpl 1000) "engine" 64) 36.

Definition calls : list ingest.call :=
  [ ingest.CallConsumeWithTag "engine" 64;
    ingest.CallConsume 36;
    ingest.CallConsumeWithTag "writer" 8;
    ingest.CallReleaseWithTag "engine";
    ingest.CallRelease 6;
    ingest.CallReleaseWithTag "writer" ].

(** Case folding of the letters A to Z, which is what [strings.ToLower]
    does on a string of ASCII bytes. *)
Definition lowerByte (c : ascii) : ascii :=
  let n := N_of_ascii c in
  if ((65 <=? n) && (n <=? 90))%N then ascii_of_N (n + 32) else c.

Fixpoint lowerASCII (s : string) : string :=
  match s with
  | EmptyString => EmptyString
  | String c rest => String (lowerByte c) (lowerASCII rest)
  end.

Definition externals : export.Externals :=
  {| export.ToLower := lowerASCII;
     export.FileFormatSQLTextString := "sql";
     export.FileFormatCSVString := "csv";
     export.RAMInBytes := fun _ => None |}.

(** A filter as the list of the tables it lets through. *)
Definition filters : export.FilterPackage :=
  {| export.Filter := list export.Table;
     export.filterParse := fun _ => (Some [], None);
     export.NewTablesFilter := fun tables => tables |}.

Definition query : export.Config :=
  {| export.SQL := "select 1"; export.Where := ""; export.FileType := "CSV" |}.

(** A configuration with both a statement and a condition, which
    [validateSpecifiedSQL] rejects. *)
Definition twoClauses : export.Config :=
  {| export.SQL := "select 1"; export.Where := "id > 0"; export.FileType := "CSV" |}.

Definition queryAdjusted : export.Config :=
  {| export.SQL := "select 1"; export.Where := ""; export.FileType := "csv" |}.

Definition tables : list string := ["shop.orders"; "shop.items"; "hr.staff.2024"].

(** What [GetConfTables] makes of [tables]. *)
Definition byDatabase : gmap string (list export.TableInfo) :=
  <["hr" := [baseTable "staff.2024"]]>
    (<["shop" := [baseTable "orders"; baseTable "items"]]> ∅).

Definition parsed : list export.Table :=
  [ {| export.Schema := "shop"; export.TableName := "orders" |};
    {| export.Schema := "shop"; export.TableName := "items" |};
    {| export.Schema := "hr"; export.TableName := "staff.2024" |} ].
End samples.

(** * Properties *)

(** ** The example cost model meets the contract *)

Lemma linearSortCost_width_nonneg (width : nat) :
  0 <= inject_Z (Z.of_nat width).
Proof.
  change 0 with (inject_Z 0). rewrite <- Zle_Qle. lia.
Qed.

Lemma linearSortCost_nonneg sctx count width :
  0 <= example.linearSortCost sctx count width.
Proof.
  unfold example.linearSortCost.
  pose proof (Q.le_max_r count 2) as Hc.
  pose proof (linearSortCost_width_nonneg width) as Hw.
  nra.
Qed.

Lemma linearSortCost_pos sctx count width :
  0 < example.linearSortCost sctx count width.
Proof.
  unfold example.linearSortCost.
  pose proof (Q.le_max_r count 2) as Hc.
  pose proof (linearSortCost_width_nonneg width) as Hw.
  nra.
Qed.

Lemma linearSortCost_mono sctx count1 count2 width1 width2 :
  count1 <= count2 -> (width1 <= width2)%nat ->
  example.linearSortCost sctx count1 width1 <=
  example.linearSortCost sctx count2 width2.
Proof.
  intros Hc Hw. unfold example.linearSortCost.
  pose proof (Q.max_le_compat_r count1 count2 2 Hc) as Hmax.
  pose proof (Q.le_max_r count1 2) as H2.
  pose proof (linearSortCost_width_nonneg width1) as Hw1.
  assert (Hww : inject_Z (Z.of_nat width1) <= inject_Z (Z.of_nat width2))
    by (rewrite <- Zle_Qle; lia).
  nra.
Qed.

Lemma linearModel_valid : physicalop.ValidSortCost example.linearModel.
Proof.
  constructor; simpl.
  - apply linearSortCost_nonneg.
  - intros sctx count width _. apply linearSortCost_pos.
  - apply linearSortCost_mono.
Qed.

(** ** Helper facts *)

Lemma engine_eqb_eq (a b : pattern.EngineType) :
  pattern.eqb a b = true <-> a = b.
Proof.
  destruct a, b; simpl; split; intro H; try reflexivity; discriminate H.
Qed.

Lemma IsSortItemEmpty_nil (p : property.PhysicalProperty) :
  property.IsSortItemEmpty p = true <-> property.SortItems p = [].
Proof.
  unfold property.IsSortItemEmpty.
  destruct (property.SortItems p); split; intro H;
    try reflexivity; discriminate H.
Qed.

(** The loop of [OnEnforce] appends one key per item, in order. *)
Lemma fold_appendItem (items : list property.SortItem) :
  forall acc : list util.ByItems,
    fold_left old.OrderEnforcer.appendItem items acc = acc ++ map sortKeyOf items.
Proof.
  induction items as [| item rest IH]; intro acc; simpl.
  - now rewrite app_nil_r.
  - rewrite IH. unfold old.OrderEnforcer.appendItem at 1.
    now rewrite <- app_assoc.
Qed.

(** [OnEnforce] never panics, and this is the implementation it returns. *)
Lemma OnEnforce_eq (reqProp : property.PhysicalProperty) (child : memo.Implementation) :
  old.OrderEnforcer.OnEnforce reqProp child =
  Ok {| memo.plan :=
          physicalop.SortPlan
            {| base.ctx := physicalop.SCtx (memo.GetPlan child);
               base.stats := physicalop.StatsInfo (memo.GetPlan child);
               base.blockOffset := physicalop.QueryBlockOffset (memo.GetPlan child);
               base.childrenReqProps :=
                 [ Some (old.OrderEnforcer.NewProperty reqProp) ];
               base.children := [memo.GetPlan child] |}
            (map sortKeyOf (property.SortItems reqProp));
        memo.cost := 0 |}.
Proof.
  unfold old.OrderEnforcer.OnEnforce, implementation.AttachChildren,
    implementation.NewSortImpl, physicalop.asPlan, physicalop.setByItems.
  simpl. now rewrite fold_appendItem.
Qed.

(** [GetEnforceCost] by cases on the group's expressions. *)
Lemma GetEnforceCost_eq {M : physicalop.SortCostModel} (g : memo.Group) :
  old.OrderEnforcer.GetEnforceCost g =
  match memo.Equivalents g with
  | [] => Panic NilPointerDereference
  | front :: _ =>
      Ok (physicalop.sortCost (base.LogicalSCtx (memo.ExprNode front))
            (property.RowCount (property.Stats (memo.Prop_ g)))
            (expression.Len (property.Schema (memo.Prop_ g))))
  end.
Proof.
  unfold old.OrderEnforcer.GetEnforceCost.
  destruct (memo.Equivalents g) as [| front rest]; reflexivity.
Qed.

Lemma GetEnforcerRules_cases {M : physicalop.SortCostModel}
    (g : memo.Group) (prop : property.PhysicalProperty) :
  old.GetEnforcerRules g prop =
  match memo.EngineType g, property.SortItems prop with
  | pattern.EngineTiDB, _ :: _ => [old.orderEnforcer]
  | _, _ => []
  end.
Proof.
  unfold old.GetEnforcerRules, property.IsSortItemEmpty.
  destruct (memo.EngineType g), (property.SortItems prop); reflexivity.
Qed.

(** ** [GetEnforcerRules] *)

Section RulesFacts.
Context {M : physicalop.SortCostModel}.

(** C1.  [GetEnforcerRules g prop] is non-empty exactly when the engine of
    [g] is [EngineTiDB] and [prop] has a sort item; for any other engine
    it is empty whatever [prop] is; and on [EngineTiDB] the order enforcer
    is among the rules as soon as [prop] has a sort item. *)
Theorem GetEnforcerRules_engine_gate (g : memo.Group) (prop : property.PhysicalProperty) :
  (old.GetEnforcerRules g prop <> [] <->
     memo.EngineType g = pattern.EngineTiDB /\ property.SortItems prop <> []) /\
  (memo.EngineType g <> pattern.EngineTiDB -> old.GetEnforcerRules g prop = []) /\
  (memo.EngineType g = pattern.EngineTiDB -> property.SortItems prop <> [] ->
     In old.orderEnforcer (old.GetEnforcerRules g prop)).
Proof.
  rewrite GetEnforcerRules_cases.
  destruct (memo.EngineType g) eqn:He, (property.SortItems prop) eqn:Hs;
    repeat split; intros; simpl; auto; try congruence;
    try match goal with H : _ /\ _ |- _ => destruct H; congruence end.
Qed.

(** C10.  [GetEnforcerRules] returns at most one rule, and a rule it
    returns is the one [orderEnforcer] instance. *)
Theorem GetEnforcerRules_only_orderEnforcer (g : memo.Group) (prop : property.PhysicalProperty) :
  (List.length (old.GetEnforcerRules g prop) <= 1)%nat /\
  (old.GetEnforcerRules g prop = [] \/
   old.GetEnforcerRules g prop = [old.orderEnforcer]) /\
  (forall e, In e (old.GetEnforcerRules g prop) -> e = old.orderEnforcer).
Proof.
  rewrite GetEnforcerRules_cases.
  destruct (memo.EngineType g), (property.SortItems prop); simpl;
    repeat split; auto; intros e He; try contradiction;
    destruct He as [He | He]; [now subst | contradiction].
Qed.
End RulesFacts.

(** ** [OrderEnforcer.NewProperty] *)

(** C5.  Whatever the input, [NewProperty] returns the empty property: no
    sort item, and [ExpectedCnt] at [math.MaxFloat64]. *)
Theorem NewProperty_is_empty_property (prop : property.PhysicalProperty) :
  old.OrderEnforcer.NewProperty prop =
    {| property.SortItems := []; property.ExpectedCnt := math.MaxFloat64 |} /\
  property.IsSortItemEmpty (old.OrderEnforcer.NewProperty prop) = true /\
  property.ExpectedCnt (old.OrderEnforcer.NewProperty prop) == inject_Z (2 ^ 1024 - 2 ^ 971).
Proof.
  repeat split.
Qed.

(** C7.  [NewProperty] is a constant function, hence idempotent: the order
    enforcer relaxes every property to one and the same value. *)
Theorem NewProperty_constant_idempotent (p q : property.PhysicalProperty) :
  old.OrderEnforcer.NewProperty p = old.OrderEnforcer.NewProperty q /\
  old.OrderEnforcer.NewProperty (old.OrderEnforcer.NewProperty p) =
    old.OrderEnforcer.NewProperty p.
Proof.
  split; reflexivity.
Qed.

(** ** [OrderEnforcer.OnEnforce] *)

(** C3.  [OnEnforce] returns a sort whose single input is the plan of the
    child, and whose sort keys are the required sort items, one for one and
    in order: the i-th key is the i-th required column with the i-th
    required direction. *)
Theorem OnEnforce_wraps_child_and_copies_items
    (reqProp : property.PhysicalProperty) (child : memo.Implementation) :
  exists impl b items,
    old.OrderEnforcer.OnEnforce reqProp child = Ok impl /\
    memo.GetPlan impl = physicalop.SortPlan b items /\
    physicalop.Children (memo.GetPlan impl) = [memo.GetPlan child] /\
    List.length items = List.length (property.SortItems reqProp) /\
    forall i,
      nth_error items i =
      option_map
        (fun item => {| util.Expr := expression.ColumnExpr (property.Col item);
                        util.Desc := property.Desc item |})
        (nth_error (property.SortItems reqProp) i).
Proof.
  rewrite OnEnforce_eq.
  eexists _, _, _. split; [reflexivity |]. split; [reflexivity |].
  split; [reflexivity |]. split.
  - apply length_map.
  - intro i. apply nth_error_map.
Qed.

(** C4, as the code has it.  The one property recorded on the sort that
    [OnEnforce] builds is the empty property, the value [NewProperty]
    returns, whatever is required; the required sort items are carried by
    the sort keys, and the required [ExpectedCnt] is not recorded at all:
    changing it does not change the result. *)
Theorem OnEnforce_records_empty_property
    (reqProp : property.PhysicalProperty) (child : memo.Implementation) :
  exists impl,
    old.OrderEnforcer.OnEnforce reqProp child = Ok impl /\
    recordedProps impl =
      [ Some {| property.SortItems := [];
                property.ExpectedCnt := math.MaxFloat64 |} ] /\
    recordedProps impl = [ Some (old.OrderEnforcer.NewProperty reqProp) ] /\
    sortKeys impl = map sortKeyOf (property.SortItems reqProp) /\
    forall cnt : float64,
      old.OrderEnforcer.OnEnforce
        {| property.SortItems := property.SortItems reqProp;
           property.ExpectedCnt := cnt |} child = Ok impl.
Proof.
  rewrite OnEnforce_eq. eexists. split; [reflexivity |].
  repeat split. intro cnt. now rewrite OnEnforce_eq.
Qed.

(** ** [OrderEnforcer.GetEnforceCost] *)

Section CostFacts.
Context {M : physicalop.SortCostModel}.

(** C2.  Under a valid cost model, a cost returned by [GetEnforceCost] is
    never negative, and is strictly positive when the row count of the
    group exceeds 1; a cost is returned for every group that holds an
    expression. *)
Theorem GetEnforceCost_nonneg_and_positive (g : memo.Group) :
  physicalop.ValidSortCost M ->
  (forall c, old.OrderEnforcer.GetEnforceCost g = Ok c ->
     0 <= c /\
     (1 < property.RowCount (property.Stats (memo.Prop_ g)) -> 0 < c)) /\
  (memo.Equivalents g <> [] ->
     exists c, old.OrderEnforcer.GetEnforceCost g = Ok c).
Proof.
  intro Hvalid. rewrite GetEnforceCost_eq.
  destruct (memo.Equivalents g) as [| front rest]; split.
  - intros c Hc. discriminate Hc.
  - intro Hne. now contradiction Hne.
  - intros c Hc. injection Hc as <-. split.
    + apply (physicalop.sortCost_nonneg M Hvalid).
    + apply (physicalop.sortCost_pos M Hvalid).
  - intros _. eexists. reflexivity.
Qed.

(** C6.  Under a valid cost model, of two groups with the same
    expressions, the one with the greater-or-equal row count and the
    wider-or-equal schema has the greater-or-equal enforcing cost; both
    costs exist when the groups hold an expression, and otherwise neither
    does. *)
Theorem GetEnforceCost_monotone (g1 g2 : memo.Group) :
  physicalop.ValidSortCost M ->
  memo.Equivalents g1 = memo.Equivalents g2 ->
  property.RowCount (property.Stats (memo.Prop_ g1)) <=
    property.RowCount (property.Stats (memo.Prop_ g2)) ->
  (expression.Len (property.Schema (memo.Prop_ g1)) <=
     expression.Len (property.Schema (memo.Prop_ g2)))%nat ->
  match old.OrderEnforcer.GetEnforceCost g1,
        old.OrderEnforcer.GetEnforceCost g2 with
  | Ok c1, Ok c2 => c1 <= c2
  | Panic _, Panic _ => memo.Equivalents g1 = []
  | _, _ => False
  end.
Proof.
  intros Hvalid Heq Hrows Hwidth.
  rewrite !GetEnforceCost_eq, <- Heq.
  destruct (memo.Equivalents g1) as [| front rest].
  - reflexivity.
  - now apply (physicalop.sortCost_mono M Hvalid).
Qed.

(** C9.  [GetEnforceCost] reads the session context through the first
    element of [Equivalents]: on a group with no expression that element
    is nil and the call panics with a nil dereference; on a group with an
    expression the read succeeds and a cost is returned. *)
Theorem GetEnforceCost_needs_an_expression (g : memo.Group) :
  (memo.Equivalents g = [] ->
     container_list.Front (memo.Equivalents g) = None /\
     old.OrderEnforcer.GetEnforceCost g = Panic NilPointerDereference) /\
  (memo.Equivalents g <> [] ->
     exists front c,
       container_list.Front (memo.Equivalents g) = Some front /\
       old.OrderEnforcer.GetEnforceCost g = Ok c).
Proof.
  rewrite GetEnforceCost_eq.
  destruct (memo.Equivalents g) as [| front rest]; split.
  - intros _. split; reflexivity.
  - intro Hne. now contradiction Hne.
  - intro Hnil. discriminate Hnil.
  - intros _. exists front. eexists. split; reflexivity.
Qed.

(** ** Determinism *)

Lemma readAt_weaken {A : Type} (heap heap' : gmap store.addr A) (p : store.pointer) :
  heap ⊆ heap' -> store.allocated heap p ->
  store.readAt heap' p = store.readAt heap p.
Proof.
  intros Hsub Hp. destruct p as [a |]; [| reflexivity].
  simpl in *. destruct Hp as [v Hv].
  now rewrite Hv, (lookup_weaken _ _ _ _ Hv Hsub).
Qed.

Lemma insert_fresh_extends {A : Type} (heap : gmap store.addr A) (v : A) :
  heap ⊆ <[fresh (dom heap) := v]> heap.
Proof.
  apply insert_subseteq, not_elem_of_dom, is_fresh.
Qed.

Lemma preserved_refl (s : store.Store) : store.preserved s s.
Proof.
  repeat split; reflexivity.
Qed.

Lemma preserved_trans (s1 s2 s3 : store.Store) :
  store.preserved s1 s2 -> store.preserved s2 s3 -> store.preserved s1 s3.
Proof.
  intros (Hv & Hg & Hp & Hi) (Hv' & Hg' & Hp' & Hi').
  repeat split; try congruence; etrans; eassumption.
Qed.

(** An invocation makes new objects at most: the objects of the store and
    the package variable are as before. *)
Lemma invoke_preserved (i : store.invocation) (s : store.Store) :
  store.preserved s (store.invoke i s).2.
Proof.
  destruct i as [g prop | this prop | this reqProp child | this g];
    unfold store.invoke.
  - unfold store.GetEnforcerRules, store.bindM, store.loadGroup,
      store.loadProperty, store.readOrderEnforcer, store.ret.
    destruct (store.readAt (store.groups s) g) as [grp | e]; simpl;
      [| apply preserved_refl].
    destruct (negb (pattern.eqb (memo.EngineType grp) pattern.EngineTiDB)); simpl;
      [apply preserved_refl |].
    destruct (store.readAt (store.properties s) prop) as [p | e]; simpl;
      [| apply preserved_refl].
    destruct (negb (property.IsSortItemEmpty p)); apply preserved_refl.
  - simpl. repeat split; try reflexivity. apply insert_fresh_extends.
  - unfold store.OnEnforce, store.bindM, store.loadImplementation,
      store.loadProperty, store.lift, store.newImplementation.
    destruct (store.readAt (store.implementations s) child) as [c | e];
      [| apply preserved_refl].
    destruct (store.readAt (store.properties s) reqProp) as [req | e];
      [| apply preserved_refl].
    rewrite OnEnforce_eq.
    repeat split; try reflexivity. apply insert_fresh_extends.
  - unfold store.GetEnforceCost, store.bindM, store.loadGroup, store.lift.
    destruct (store.readAt (store.groups s) g) as [grp | e]; simpl;
      apply preserved_refl.
Qed.

Lemma run_preserved (calls : list store.invocation) (s : store.Store) :
  store.preserved s (store.run s calls).
Proof.
  revert s. induction calls as [| i calls IH]; intro s; simpl.
  - apply preserved_refl.
  - eapply preserved_trans; [apply (invoke_preserved i) | apply IH].
Qed.

(** What an invocation returns depends on the objects its arguments
    point to and on the package variable, and on nothing else of the
    store. *)
Lemma invoke_agree (i : store.invocation) (s s' : store.Store) :
  store.preserved s s' -> store.argumentsIn s i ->
  (store.invoke i s').1 = (store.invoke i s).1.
Proof.
  intros (Hvar & Hgroups & Hprops & Himpls) Hargs.
  destruct i as [g prop | this prop | this reqProp child | this g];
    unfold store.invoke; simpl in Hargs.
  - destruct Hargs as (_ & Hprop).
    unfold store.GetEnforcerRules, store.bindM, store.loadGroup,
      store.loadProperty, store.readOrderEnforcer, store.ret.
    cbv beta. rewrite Hgroups.
    destruct (store.readAt (store.groups s) g) as [grp | e]; cbv beta iota;
      [| reflexivity].
    destruct (negb (pattern.eqb (memo.EngineType grp) pattern.EngineTiDB));
      cbv beta iota; [reflexivity |].
    rewrite (readAt_weaken _ _ prop Hprops Hprop).
    destruct (store.readAt (store.properties s) prop) as [p | e]; cbv beta iota;
      [| reflexivity].
    destruct (negb (property.IsSortItemEmpty p)); cbv beta iota;
      rewrite ?Hvar; reflexivity.
  - simpl. now rewrite !lookup_insert_eq.
  - destruct Hargs as (Hreq & Hchild).
    unfold store.OnEnforce, store.bindM, store.loadImplementation,
      store.loadProperty, store.lift, store.newImplementation.
    cbv beta. rewrite (readAt_weaken _ _ child Himpls Hchild).
    destruct (store.readAt (store.implementations s) child) as [c | e];
      cbv beta iota; [| reflexivity].
    rewrite (readAt_weaken _ _ reqProp Hprops Hreq).
    destruct (store.readAt (store.properties s) reqProp) as [req | e];
      cbv beta iota; [| reflexivity].
    rewrite OnEnforce_eq. simpl. now rewrite !lookup_insert_eq.
  - unfold store.GetEnforceCost, store.bindM, store.loadGroup, store.lift.
    cbv beta. rewrite Hgroups.
    destruct (store.readAt (store.groups s) g) as [grp | e]; reflexivity.
Qed.

(** On objects that are there, the functions on the store return what the
    functions on values return. *)
Lemma store_GetEnforcerRules_value
    (s : store.Store) (g prop : store.pointer)
    (grp : memo.Group) (p : property.PhysicalProperty) :
  store.readAt (store.groups s) g = Ok grp ->
  store.readAt (store.properties s) prop = Ok p ->
  store.GetEnforcerRules g prop s =
  (Ok (map (fun _ => {| store.dynamicType := store.TypeOrderEnforcer;
                        store.receiver := store.orderEnforcerVar s |})
           (old.GetEnforcerRules grp p)), s).
Proof.
  intros Hg Hp.
  unfold store.GetEnforcerRules, store.bindM, store.loadGroup,
    store.loadProperty, store.readOrderEnforcer, store.ret, old.GetEnforcerRules.
  cbv beta. rewrite Hg. cbv beta iota.
  destruct (negb (pattern.eqb (memo.EngineType grp) pattern.EngineTiDB));
    [reflexivity |].
  cbv beta iota. rewrite Hp. cbv beta iota.
  now destruct (negb (property.IsSortItemEmpty p)).
Qed.

Lemma store_GetEnforceCost_value
    (s : store.Store) (this g : store.pointer) (grp : memo.Group) :
  store.readAt (store.groups s) g = Ok grp ->
  store.GetEnforceCost this g s = (old.OrderEnforcer.GetEnforceCost grp, s).
Proof.
  intro Hg. unfold store.GetEnforceCost, store.bindM, store.loadGroup, store.lift.
  cbv beta. now rewrite Hg.
Qed.

(** C8.  Two invocations with the same arguments return the same result,
    whatever invocations of the four functions run in between: the same
    list of enforcers, the same relaxed property, the same wrapped
    implementation with the same sort keys, the same cost, or the same
    panic.  For an invocation runs on the store the earlier ones left, and
    these leave the objects of the store and the package variable as they
    were. *)
Theorem repeated_invocations_agree
    (s : store.Store) (between : list store.invocation) (i : store.invocation) :
  store.argumentsIn s i ->
  (store.invoke i (store.run s between)).1 = (store.invoke i s).1 /\
  (store.invoke i (store.run (store.invoke i s).2 between)).1 = (store.invoke i s).1 /\
  store.preserved s (store.run (store.invoke i s).2 between).
Proof.
  intro Hargs.
  assert (Hafter : store.preserved s (store.run (store.invoke i s).2 between)).
  { eapply preserved_trans; [apply invoke_preserved | apply run_preserved]. }
  split; [| split].
  - apply invoke_agree; [apply run_preserved | exact Hargs].
  - apply invoke_agree; [exact Hafter | exact Hargs].
  - exact Hafter.
Qed.
End CostFacts.

(** ** The rules at work on the example group *)

(** C4 as the spec words it fails: for the order [colA], [colB desc] with
    an expected count of 10 over the scan, the property recorded on the
    sort is not the required one and does not contain it; and a required
    property that differs only in its expected count yields the very same
    implementation, so nothing read off the result can be the required
    property in both cases. *)
Lemma OnEnforce_output_property_counterexample :
  old.OrderEnforcer.OnEnforce (example.byAB 10) example.scanImpl =
    Ok example.sortOverScan /\
  recordedProps example.sortOverScan <> [ Some (example.byAB 10) ] /\
  ~ In (Some (example.byAB 10)) (recordedProps example.sortOverScan) /\
  old.OrderEnforcer.OnEnforce (example.byAB 20) example.scanImpl =
    Ok example.sortOverScan /\
  example.byAB 10 <> example.byAB 20.
Proof.
  split; [reflexivity |]. split; [discriminate |]. split.
  - intros [H | []]. discriminate H.
  - split; [reflexivity | discriminate].
Qed.

Lemma GetEnforcerRules_engine_gate_witness :
  In (@old.orderEnforcer example.linearModel)
     (@old.GetEnforcerRules example.linearModel example.G (example.byAB 10)) /\
  @old.GetEnforcerRules example.linearModel example.Gtikv (example.byAB 10) = [].
Proof.
  destruct (@GetEnforcerRules_engine_gate example.linearModel example.G (example.byAB 10))
    as (_ & _ & Hoffer).
  destruct (@GetEnforcerRules_engine_gate example.linearModel example.Gtikv (example.byAB 10))
    as (_ & Hother & _).
  split.
  - apply Hoffer; [reflexivity | discriminate].
  - apply Hother. discriminate.
Defined.

Lemma GetEnforcerRules_only_orderEnforcer_witness :
  In (hd (@old.orderEnforcer example.linearModel)
        (@old.GetEnforcerRules example.linearModel example.G (example.byAB 10)))
     (@old.GetEnforcerRules example.linearModel example.G (example.byAB 10)) /\
  hd (@old.orderEnforcer example.linearModel)
     (@old.GetEnforcerRules example.linearModel example.G (example.byAB 10)) =
    @old.orderEnforcer example.linearModel.
Proof.
  destruct (@GetEnforcerRules_only_orderEnforcer example.linearModel
              example.G (example.byAB 10)) as (_ & _ & Hsame).
  assert (Hin : In (hd (@old.orderEnforcer example.linearModel)
                      (@old.GetEnforcerRules example.linearModel example.G (example.byAB 10)))
                   (@old.GetEnforcerRules example.linearModel example.G (example.byAB 10)))
    by (left; reflexivity).
  split; [exact Hin | exact (Hsame _ Hin)].
Defined.

Lemma GetEnforceCost_nonneg_and_positive_witness :
  physicalop.ValidSortCost example.linearModel /\
  1 < property.RowCount (property.Stats (memo.Prop_ example.G)) /\
  @old.OrderEnforcer.GetEnforceCost example.linearModel example.G = Ok 2000 /\
  0 < 2000.
Proof.
  destruct (@GetEnforceCost_nonneg_and_positive example.linearModel example.G
              linearModel_valid) as (Hsign & _).
  assert (Hrun : @old.OrderEnforcer.GetEnforceCost example.linearModel example.G = Ok 2000)
    by reflexivity.
  assert (Hrows : 1 < property.RowCount (property.Stats (memo.Prop_ example.G)))
    by reflexivity.
  split; [exact linearModel_valid |].
  split; [exact Hrows |]. split; [exact Hrun |].
  exact (proj2 (Hsign 2000 Hrun) Hrows).
Defined.

Lemma GetEnforceCost_monotone_witness :
  physicalop.ValidSortCost example.linearModel /\
  memo.Equivalents example.G = memo.Equivalents example.Gwide /\
  match @old.OrderEnforcer.GetEnforceCost example.linearModel example.G,
        @old.OrderEnforcer.GetEnforceCost example.linearModel example.Gwide with
  | Ok c1, Ok c2 => c1 <= c2
  | Panic _, Panic _ => memo.Equivalents example.G = []
  | _, _ => False
  end.
Proof.
  split; [exact linearModel_valid |]. split; [reflexivity |].
  apply (@GetEnforceCost_monotone example.linearModel example.G example.Gwide).
  - exact linearModel_valid.
  - reflexivity.
  - unfold Qle; simpl; lia.
  - unfold expression.Len; simpl; lia.
Defined.

Lemma GetEnforceCost_needs_an_expression_witness :
  @old.OrderEnforcer.GetEnforceCost example.linearModel example.Gempty =
    Panic NilPointerDereference /\
  exists front c,
    container_list.Front (memo.Equivalents example.G) = Some front /\
    @old.OrderEnforcer.GetEnforceCost example.linearModel example.G = Ok c.
Proof.
  destruct (@GetEnforceCost_needs_an_expression example.linearModel example.Gempty)
    as (Hpanic & _).
  destruct (@GetEnforceCost_needs_an_expression example.linearModel example.G)
    as (_ & Hok).
  split.
  - apply Hpanic. reflexivity.
  - apply Hok. discriminate.
Defined.

Lemma repeated_invocations_agree_witness :
  store.argumentsIn store.sample
    (store.CallOnEnforce None (Some 1%positive) (Some 1%positive)) /\
  (@store.invoke example.linearModel
     (store.CallOnEnforce None (Some 1%positive) (Some 1%positive))
     (@store.run example.linearModel store.sample store.sampleCalls)).1 =
    store.Enforced (Ok example.sortOverScan).
Proof.
  assert (Hargs : store.argumentsIn store.sample
                    (store.CallOnEnforce None (Some 1%positive) (Some 1%positive))).
  { split; eexists; reflexivity. }
  split; [exact Hargs |].
  rewrite (proj1 (@repeated_invocations_agree example.linearModel
                    store.sample store.sampleCalls _ Hargs)).
  reflexivity.
Defined.

Local Open Scope Z_scope.

(** Closes a closed comparison of integers by evaluating it. *)
Ltac by_compute :=
  vm_compute; repeat split;
  solve [reflexivity | discriminate | intro; discriminate].

(** * Properties of the memory accounting *)

(** ** Arithmetic of [int64] *)

Lemma int64_wrap_range (z : Z) : ingest.int64_range (ingest.int64_wrap z).
Proof.
  unfold ingest.int64_range, ingest.int64_wrap, ingest.MinInt64, ingest.MaxInt64.
  pose proof (Z.mod_pos_bound (z + 2 ^ 63) (2 ^ 64) ltac:(lia)). lia.
Qed.

Lemma int64_wrap_id (z : Z) : ingest.int64_range z -> ingest.int64_wrap z = z.
Proof.
  unfold ingest.int64_range, ingest.int64_wrap, ingest.MinInt64, ingest.MaxInt64.
  intro Hz. rewrite Z.mod_small by lia. lia.
Qed.

(** Wrapping forgets multiples of 2^64, and nothing else. *)
Lemma int64_wrap_congr (a b k : Z) :
  a = b + k * 2 ^ 64 -> ingest.int64_wrap a = ingest.int64_wrap b.
Proof.
  intros ->. unfold ingest.int64_wrap.
  replace (b + k * 2 ^ 64 + 2 ^ 63) with (b + 2 ^ 63 + k * 2 ^ 64) by lia.
  now rewrite Z.mod_add by lia.
Qed.

Lemma int64_wrap_decomp (z : Z) : exists k, ingest.int64_wrap z = z + k * 2 ^ 64.
Proof.
  exists (- ((z + 2 ^ 63) / 2 ^ 64)). unfold ingest.int64_wrap.
  pose proof (Z.div_mod (z + 2 ^ 63) (2 ^ 64) ltac:(lia)). lia.
Qed.

Lemma int64_wrap_add_l (a b : Z) :
  ingest.int64_wrap (ingest.int64_wrap a + b) = ingest.int64_wrap (a + b).
Proof.
  destruct (int64_wrap_decomp a) as [k ->].
  apply (int64_wrap_congr _ _ k). lia.
Qed.

Lemma int64_wrap_sub_l (a b : Z) :
  ingest.int64_wrap (ingest.int64_wrap a - b) = ingest.int64_wrap (a - b).
Proof.
  destruct (int64_wrap_decomp a) as [k ->].
  apply (int64_wrap_congr _ _ k). lia.
Qed.

Lemma int64_wrap_sub_r (a b : Z) :
  ingest.int64_wrap (a - ingest.int64_wrap b) = ingest.int64_wrap (a - b).
Proof.
  destruct (int64_wrap_decomp b) as [k ->].
  apply (int64_wrap_congr _ _ (- k)). lia.
Qed.

Lemma int64_wrap_add_r (a b : Z) :
  ingest.int64_wrap (a + ingest.int64_wrap b) = ingest.int64_wrap (a + b).
Proof.
  destruct (int64_wrap_decomp b) as [k ->].
  apply (int64_wrap_congr _ _ k). lia.
Qed.

(** Two states are the same when their three fields are. *)
Lemma memRootImpl_eq (m m' : ingest.memRootImpl) :
  ingest.maxLimit m = ingest.maxLimit m' ->
  ingest.currUsage m = ingest.currUsage m' ->
  ingest.structSize m = ingest.structSize m' ->
  m = m'.
Proof.
  destruct m, m'; simpl; intros -> -> ->; reflexivity.
Qed.

(** ** Untagged consumption *)

(** X1.  [Release] undoes [Consume] of the same size, and [Consume] undoes
    [Release], whatever the size: the usage comes back to what it was even
    when the addition in between overflowed. *)
Theorem Consume_Release_roundtrip (m : ingest.memRootImpl) (size : Z) :
  ingest.int64_range (ingest.currUsage m) ->
  ingest.Release (ingest.Consume m size) size = m /\
  ingest.Consume (ingest.Release m size) size = m.
Proof.
  intro Hcur. split; apply memRootImpl_eq; simpl; try reflexivity.
  - rewrite int64_wrap_sub_l.
    replace (ingest.currUsage m + size - size) with (ingest.currUsage m) by lia.
    now apply int64_wrap_id.
  - rewrite int64_wrap_add_l.
    replace (ingest.currUsage m - size + size) with (ingest.currUsage m) by lia.
    now apply int64_wrap_id.
Qed.

(** ** The quota check *)

(** X2.  When the sum of the usage and the requested size is an [int64],
    [CheckConsume] is the comparison of that sum with the quota. *)
Theorem CheckConsume_exact (m : ingest.memRootImpl) (size : Z) :
  ingest.int64_range (ingest.currUsage m + size) ->
  (ingest.CheckConsume m size = true <->
   ingest.currUsage m + size <= ingest.maxLimit m).
Proof.
  intro Hsum. unfold ingest.CheckConsume.
  rewrite int64_wrap_id by assumption. apply Z.leb_le.
Qed.

(** X3.  When the sum of the usage and the requested size exceeds
    [MaxInt64], the sum wraps to a negative number and [CheckConsume]
    accepts the request under any non-negative quota. *)
Theorem CheckConsume_overflow_accepts (m : ingest.memRootImpl) (size : Z) :
  ingest.int64_range (ingest.currUsage m) ->
  ingest.int64_range size ->
  ingest.MaxInt64 < ingest.currUsage m + size ->
  0 <= ingest.maxLimit m ->
  ingest.CheckConsume m size = true.
Proof.
  unfold ingest.int64_range, ingest.MinInt64, ingest.MaxInt64, ingest.CheckConsume.
  intros Hcur Hsize Hover Hquota. apply Z.leb_le.
  assert (Hwrap : ingest.int64_wrap (ingest.currUsage m + size) =
                  ingest.currUsage m + size - 2 ^ 64).
  { unfold ingest.int64_wrap.
    replace (ingest.currUsage m + size + 2 ^ 63)
      with (ingest.currUsage m + size - 2 ^ 63 + 1 * 2 ^ 64) by lia.
    rewrite Z.mod_add by lia. rewrite Z.mod_small by lia. lia. }
  rewrite Hwrap. lia.
Qed.

(** ** Tagged consumption *)

(** X4.  Consuming under a tag that is not recorded and then releasing the
    tag gives back the state before, whatever the size. *)
Theorem ConsumeWithTag_ReleaseWithTag_fresh
    (m : ingest.memRootImpl) (tag : string) (size : Z) :
  ingest.int64_range (ingest.currUsage m) ->
  ingest.structSize m !! tag = None ->
  ingest.ReleaseWithTag (ingest.ConsumeWithTag m tag size) tag = m.
Proof.
  intros Hcur Hfresh. apply memRootImpl_eq; simpl; try reflexivity.
  - rewrite Hfresh, lookup_insert_eq. simpl.
    rewrite int64_wrap_sub_l.
    replace (ingest.currUsage m + size - size) with (ingest.currUsage m) by lia.
    now apply int64_wrap_id.
  - rewrite Hfresh. now apply delete_insert_id.
Qed.

(** X5.  Releasing a tag that is not recorded changes nothing. *)
Theorem ReleaseWithTag_missing (m : ingest.memRootImpl) (tag : string) :
  ingest.int64_range (ingest.currUsage m) ->
  ingest.structSize m !! tag = None ->
  ingest.ReleaseWithTag m tag = m.
Proof.
  intros Hcur Hmiss. apply memRootImpl_eq; simpl; try reflexivity.
  - rewrite Hmiss. simpl. rewrite Z.sub_0_r. now apply int64_wrap_id.
  - now apply delete_id.
Qed.

(** X6.  Releasing a tag twice is releasing it once. *)
Theorem ReleaseWithTag_idempotent (m : ingest.memRootImpl) (tag : string) :
  ingest.ReleaseWithTag (ingest.ReleaseWithTag m tag) tag =
  ingest.ReleaseWithTag m tag.
Proof.
  apply memRootImpl_eq; simpl; try reflexivity.
  - rewrite lookup_delete_eq. simpl. rewrite Z.sub_0_r.
    apply int64_wrap_id, int64_wrap_range.
  - apply delete_delete_eq.
Qed.

(** X7.  After [ReleaseWithTag] the tag reads 0, every other tag reads
    what it read before, and the usage has gone down by what the tag
    read. *)
Theorem ReleaseWithTag_effect (m : ingest.memRootImpl) (tag : string) :
  ingest.CurrentUsageWithTag (ingest.ReleaseWithTag m tag) tag = 0 /\
  (forall other, other <> tag ->
     ingest.CurrentUsageWithTag (ingest.ReleaseWithTag m tag) other =
     ingest.CurrentUsageWithTag m other) /\
  ingest.CurrentUsage (ingest.ReleaseWithTag m tag) =
    ingest.int64_wrap (ingest.CurrentUsage m - ingest.CurrentUsageWithTag m tag).
Proof.
  unfold ingest.CurrentUsageWithTag, ingest.CurrentUsage. simpl.
  split; [| split].
  - now rewrite lookup_delete_eq.
  - intros other Hne. now rewrite lookup_delete_ne.
  - reflexivity.
Qed.

(** X8.  [ConsumeWithTag] adds the size to what the tag read, 0 for a tag
    not recorded, with the wrap-around of [int64]; it adds the same size
    to the usage and leaves every other tag as it was. *)
Theorem ConsumeWithTag_effect (m : ingest.memRootImpl) (tag : string) (size : Z) :
  ingest.int64_range size ->
  ingest.CurrentUsageWithTag (ingest.ConsumeWithTag m tag size) tag =
    ingest.int64_wrap (ingest.CurrentUsageWithTag m tag + size) /\
  (forall other, other <> tag ->
     ingest.CurrentUsageWithTag (ingest.ConsumeWithTag m tag size) other =
     ingest.CurrentUsageWithTag m other) /\
  ingest.CurrentUsage (ingest.ConsumeWithTag m tag size) =
    ingest.int64_wrap (ingest.CurrentUsage m + size).
Proof.
  intro Hsize.
  unfold ingest.CurrentUsageWithTag, ingest.CurrentUsage. simpl.
  destruct (ingest.structSize m !! tag) as [s |] eqn:Hs; simpl;
    (split; [| split]).
  - now rewrite lookup_insert_eq.
  - intros other Hne. now rewrite lookup_insert_ne.
  - reflexivity.
  - rewrite lookup_insert_eq. simpl. symmetry. now apply int64_wrap_id.
  - intros other Hne. now rewrite lookup_insert_ne.
  - reflexivity.
Qed.

(** X9.  The update the interface documents: [ReleaseWithTag] followed by
    [ConsumeWithTag] sets what the tag reads to the new size, moves the
    usage from the old reading to the new one, and touches no other
    tag. *)
Theorem ReleaseWithTag_then_ConsumeWithTag
    (m : ingest.memRootImpl) (tag : string) (size : Z) :
  let m' := ingest.ConsumeWithTag (ingest.ReleaseWithTag m tag) tag size in
  ingest.CurrentUsageWithTag m' tag = size /\
  (forall other, other <> tag ->
     ingest.CurrentUsageWithTag m' other = ingest.CurrentUsageWithTag m other) /\
  ingest.CurrentUsage m' =
    ingest.int64_wrap (ingest.CurrentUsage m - ingest.CurrentUsageWithTag m tag + size).
Proof.
  unfold ingest.CurrentUsageWithTag, ingest.CurrentUsage. simpl.
  rewrite lookup_delete_eq. split; [| split].
  - now rewrite lookup_insert_eq.
  - intros other Hne. now rewrite lookup_insert_ne, lookup_delete_ne.
  - apply int64_wrap_add_l.
Qed.

(** X10.  Consumptions under two different tags commute: the state after
    both does not depend on which came first. *)
Theorem ConsumeWithTag_commute
    (m : ingest.memRootImpl) (tag1 tag2 : string) (size1 size2 : Z) :
  tag1 <> tag2 ->
  ingest.ConsumeWithTag (ingest.ConsumeWithTag m tag1 size1) tag2 size2 =
  ingest.ConsumeWithTag (ingest.ConsumeWithTag m tag2 size2) tag1 size1.
Proof.
  intro Hne. apply memRootImpl_eq; simpl; try reflexivity.
  - rewrite !int64_wrap_add_l. f_equal. lia.
  - destruct (ingest.structSize m !! tag1) as [s1 |] eqn:H1,
             (ingest.structSize m !! tag2) as [s2 |] eqn:H2;
      rewrite !lookup_insert_ne by congruence; rewrite ?H1, ?H2;
      now apply insert_insert_ne.
Qed.

(** ** The accounting invariant *)

Lemma sum_delete (sizes : gmap string Z) (tag : string) :
  map_fold (fun _ s acc => s + acc) 0 sizes =
  default 0 (sizes !! tag) + map_fold (fun _ s acc => s + acc) 0 (delete tag sizes).
Proof.
  destruct (sizes !! tag) as [s |] eqn:Hs; simpl.
  - apply (map_fold_delete_L (fun _ s acc => s + acc)); [| exact Hs].
    intros; lia.
  - now rewrite delete_id.
Qed.

Lemma sum_insert (sizes : gmap string Z) (tag : string) (s : Z) :
  map_fold (fun _ s acc => s + acc) 0 (<[tag := s]> sizes) =
  s + map_fold (fun _ s acc => s + acc) 0 (delete tag sizes).
Proof.
  rewrite <- insert_delete_eq.
  apply (map_fold_insert_L (fun _ s acc => s + acc)).
  - intros; lia.
  - apply lookup_delete_eq.
Qed.

(** One call moves the usage outside the tags by its untagged size, up to
    wrap-around. *)
Lemma step_untagged (m : ingest.memRootImpl) (c : ingest.call) :
  ingest.int64_wrap (ingest.currUsage (ingest.step m c) -
                     ingest.taggedTotal (ingest.step m c)) =
  ingest.int64_wrap (ingest.currUsage m - ingest.taggedTotal m + untaggedDelta c).
Proof.
  unfold ingest.taggedTotal.
  destruct c as [size | size | size | tag size | tag | quota |]; simpl;
    rewrite ?int64_wrap_sub_l.
  - apply (int64_wrap_congr _ _ 0). lia.
  - apply (int64_wrap_congr _ _ 0). lia.
  - apply (int64_wrap_congr _ _ 0). lia.
  - rewrite (sum_delete (ingest.structSize m) tag).
    destruct (ingest.structSize m !! tag) as [s |] eqn:Hs; simpl;
      rewrite sum_insert.
    + destruct (int64_wrap_decomp (s + size)) as [k ->].
      apply (int64_wrap_congr _ _ (- k)). lia.
    + apply (int64_wrap_congr _ _ 0). lia.
  - rewrite (sum_delete (ingest.structSize m) tag).
    apply (int64_wrap_congr _ _ 0). lia.
  - apply (int64_wrap_congr _ _ 0). lia.
  - unfold ingest.RefreshConsumption. apply (int64_wrap_congr _ _ 0). lia.
Qed.

Lemma run_untagged (cs : list ingest.call) (m : ingest.memRootImpl) :
  ingest.int64_wrap (ingest.currUsage (ingest.run m cs) -
                     ingest.taggedTotal (ingest.run m cs)) =
  ingest.int64_wrap (ingest.currUsage m - ingest.taggedTotal m +
                     ingest.untaggedNet cs).
Proof.
  induction cs as [| c cs IH] using rev_ind.
  - simpl. apply (int64_wrap_congr _ _ 0).
    unfold ingest.untaggedNet. simpl. lia.
  - unfold ingest.run in *. rewrite fold_left_app. simpl.
    rewrite step_untagged, <- int64_wrap_add_l, IH, int64_wrap_add_l.
    unfold ingest.untaggedNet at 2. rewrite fold_left_app. simpl.
    fold (ingest.untaggedNet cs). apply (int64_wrap_congr _ _ 0).
    destruct c; simpl; lia.
Qed.

Lemma run_currUsage_range (cs : list ingest.call) (m : ingest.memRootImpl) :
  ingest.int64_range (ingest.currUsage m) ->
  ingest.int64_range (ingest.currUsage (ingest.run m cs)).
Proof.
  intro Hm. induction cs as [| c cs IH] using rev_ind; [exact Hm |].
  unfold ingest.run in *. rewrite fold_left_app. simpl.
  destruct c; simpl; try apply int64_wrap_range; exact IH.
Qed.

(** X11.  After any run of calls on a new [MemRoot], the usage is the sum
    of what the tags read plus what the untagged calls consumed net of
    what they released, with the wrap-around of [int64]; so once every tag
    is released, the usage is the untagged net alone. *)
Theorem usage_is_tagged_plus_untagged (maxQuota : Z) (cs : list ingest.call) :
  let m := ingest.run (ingest.NewMemRootImpl maxQuota) cs in
  ingest.CurrentUsage m =
    ingest.int64_wrap (ingest.untaggedNet cs + ingest.taggedTotal m) /\
  (ingest.structSize m = ∅ ->
   ingest.CurrentUsage m = ingest.int64_wrap (ingest.untaggedNet cs)).
Proof.
  intro m.
  assert (Hsum : ingest.CurrentUsage m =
                 ingest.int64_wrap (ingest.untaggedNet cs + ingest.taggedTotal m)).
  { pose proof (run_untagged cs (ingest.NewMemRootImpl maxQuota)) as Hinv.
    fold m in Hinv.
    assert (Hrange : ingest.int64_range (ingest.currUsage m)).
    { apply run_currUsage_range. simpl.
      unfold ingest.int64_range, ingest.MinInt64, ingest.MaxInt64. lia. }
    unfold ingest.CurrentUsage.
    rewrite <- (int64_wrap_id _ Hrange) at 1.
    replace (ingest.currUsage m)
      with (ingest.currUsage m - ingest.taggedTotal m + ingest.taggedTotal m)
      at 1 by lia.
    rewrite <- int64_wrap_add_l, Hinv, int64_wrap_add_l.
    apply (int64_wrap_congr _ _ 0).
    unfold ingest.taggedTotal at 1. simpl. rewrite map_fold_empty. lia. }
  split; [exact Hsum |].
  intro Hempty. rewrite Hsum. unfold ingest.taggedTotal.
  rewrite Hempty, map_fold_empty. apply (int64_wrap_congr _ _ 0). lia.
Qed.

(** * Properties of the export configuration *)

(** ** The adjusters *)

(** The adjusters of a list in two parts: the second part runs on what the
    first left, unless the first returned an error. *)
Lemma adjustConfig_concat (conf : export.Config) (fns1 fns2 : list export.adjuster) :
  export.adjustConfig conf (fns1 ++ fns2) =
  match export.adjustConfig conf fns1 with
  | (conf', None) => export.adjustConfig conf' fns2
  | (conf', Some err) => (conf', Some err)
  end.
Proof.
  revert conf. induction fns1 as [| f fns1 IH]; intro conf; simpl.
  - reflexivity.
  - destruct (f conf) as [conf' [err |]]; [reflexivity | apply IH].
Qed.

(** X12.  [adjustConfig] runs the adjusters in order on the same
    configuration and stops at the first error.  With no adjuster it
    returns the configuration and no error.  When the adjusters so far
    returned no error, the next one runs on the configuration they left
    and what it returns is returned, its error included.  When they
    returned an error, that error is returned with the configuration as
    the failing adjuster left it, whatever adjusters follow: none of them
    runs. *)
Theorem adjustConfig_stops_at_first_error (conf : export.Config) :
  export.adjustConfig conf [] = (conf, None) /\
  (forall (fns : list export.adjuster) (f : export.adjuster) (conf1 : export.Config),
     export.adjustConfig conf fns = (conf1, None) ->
     export.adjustConfig conf (fns ++ [f]) = f conf1) /\
  (forall (fns later : list export.adjuster) (conf1 : export.Config) (err : string),
     export.adjustConfig conf fns = (conf1, Some err) ->
     export.adjustConfig conf (fns ++ later) = (conf1, Some err)) /\
  (forall (fns later : list export.adjuster) (conf1 : export.Config),
     export.adjustConfig conf fns = (conf1, None) ->
     export.adjustConfig conf (fns ++ later) = export.adjustConfig conf1 later).
Proof.
  split; [reflexivity |]. split; [| split].
  - intros fns f conf1 Hrun. rewrite adjustConfig_concat, Hrun. simpl.
    now destruct (f conf1) as [conf2 [err |]].
  - intros fns later conf1 err Hrun. now rewrite adjustConfig_concat, Hrun.
  - intros fns later conf1 Hrun. now rewrite adjustConfig_concat, Hrun.
Qed.

Lemma nonEmpty_true (s : string) : export.nonEmpty s = true <-> s <> EmptyString.
Proof.
  unfold export.nonEmpty. rewrite negb_true_iff. apply String.eqb_neq.
Qed.

Section AdjustFileFormat.
Context {E : export.Externals}.

(** X13.  When [adjustFileFormat] returns no error, the file type it
    leaves is one of the two format names, it is the CSV one whenever a
    SQL statement is configured, and the other fields are untouched. *)
Theorem adjustFileFormat_success (conf conf' : export.Config) :
  export.adjustFileFormat conf = (conf', None) ->
  (export.FileType conf' = export.FileFormatSQLTextString \/
   export.FileType conf' = export.FileFormatCSVString) /\
  (export.SQL conf <> EmptyString ->
   export.FileType conf' = export.FileFormatCSVString) /\
  export.SQL conf' = export.SQL conf /\
  export.Where conf' = export.Where conf.
Proof.
  unfold export.adjustFileFormat, export.Errorf1. simpl.
  destruct (String.eqb_spec (export.ToLower (export.FileType conf)) "") as [Hempty | Hempty].
  - destruct (export.nonEmpty (export.SQL conf)) eqn:Hsql;
      intro H; injection H as <-; simpl; repeat split; auto.
    intro Hne. apply nonEmpty_true in Hne. congruence.
  - destruct (String.eqb_spec (export.ToLower (export.FileType conf))
                export.FileFormatSQLTextString) as [Hs | Hs].
    + destruct (export.nonEmpty (export.SQL conf)) eqn:Hsql; [discriminate |].
      intro H; injection H as <-; simpl; repeat split; auto.
      intro Hne. apply nonEmpty_true in Hne. congruence.
    + destruct (String.eqb_spec (export.ToLower (export.FileType conf))
                  export.FileFormatCSVString) as [Hc | Hc]; [| discriminate].
      intro H; injection H as <-; simpl; repeat split; auto.
Qed.

(** X14.  [adjustFileFormat] returns an error in two cases only: the
    folded file type is neither empty nor one of the two format names, or
    it is the SQL format while a SQL statement is configured. *)
Theorem adjustFileFormat_error_iff (conf : export.Config) :
  export.ExternalsOk E ->
  ((export.adjustFileFormat conf).2 <> None <->
   (export.ToLower (export.FileType conf) <> EmptyString /\
    export.ToLower (export.FileType conf) <> export.FileFormatSQLTextString /\
    export.ToLower (export.FileType conf) <> export.FileFormatCSVString) \/
   (export.ToLower (export.FileType conf) = export.FileFormatSQLTextString /\
    export.SQL conf <> EmptyString)).
Proof.
  intro Hok. pose proof (export.sql_nonempty E Hok) as Hsqlne.
  unfold export.adjustFileFormat, export.Errorf1. simpl.
  destruct (String.eqb_spec (export.ToLower (export.FileType conf)) "") as [Hempty | Hempty].
  - destruct (export.nonEmpty (export.SQL conf)) eqn:Hsql; simpl;
      (split; [congruence |]); intros [(H1 & _) | (H1 & _)]; congruence.
  - destruct (String.eqb_spec (export.ToLower (export.FileType conf))
                export.FileFormatSQLTextString) as [Hs | Hs].
    + destruct (export.nonEmpty (export.SQL conf)) eqn:Hsql; simpl.
      * split; [| discriminate]. intros _. right. split; [exact Hs |].
        now apply nonEmpty_true.
      * split; [congruence |]. intros [(_ & H2 & _) | (_ & H2)]; [congruence |].
        apply nonEmpty_true in H2. congruence.
    + destruct (String.eqb_spec (export.ToLower (export.FileType conf))
                  export.FileFormatCSVString) as [Hc | Hc]; simpl.
      * split; [congruence |]. intros [(_ & _ & H3) | (H1 & _)]; congruence.
      * split; [| discriminate]. intros _. left. auto.
Qed.

(** X15.  A configuration that [adjustFileFormat] accepted is accepted
    again and left as it is. *)
Theorem adjustFileFormat_idempotent (conf conf' : export.Config) :
  export.ExternalsOk E ->
  export.adjustFileFormat conf = (conf', None) ->
  export.adjustFileFormat conf' = (conf', None).
Proof.
  intros Hok.
  pose proof (export.csv_nonempty E Hok) as Hcsvne.
  pose proof (export.sql_nonempty E Hok) as Hsqlne.
  pose proof (export.sql_not_csv E Hok) as Hdiff.
  pose proof (export.sql_folded E Hok) as Hsqlf.
  pose proof (export.csv_folded E Hok) as Hcsvf.
  assert (Hsql_again : forall c : export.Config,
            export.nonEmpty (export.SQL c) = false ->
            export.adjustFileFormat
              (export.setFileType c export.FileFormatSQLTextString) =
            (export.setFileType c export.FileFormatSQLTextString, None)).
  { intros c Hc. unfold export.adjustFileFormat. simpl. rewrite Hsqlf.
    destruct (String.eqb_spec export.FileFormatSQLTextString "") as [? | _];
      [congruence |].
    now rewrite String.eqb_refl, Hc. }
  assert (Hcsv_again : forall c : export.Config,
            export.adjustFileFormat
              (export.setFileType c export.FileFormatCSVString) =
            (export.setFileType c export.FileFormatCSVString, None)).
  { intros c. unfold export.adjustFileFormat. simpl. rewrite Hcsvf.
    destruct (String.eqb_spec export.FileFormatCSVString "") as [? | _];
      [congruence |].
    destruct (String.eqb_spec export.FileFormatCSVString
                export.FileFormatSQLTextString) as [? | _]; [congruence |].
    now rewrite String.eqb_refl. }
  unfold export.adjustFileFormat at 1, export.Errorf1. simpl.
  destruct (String.eqb_spec (export.ToLower (export.FileType conf)) "") as [Hempty | Hempty].
  - destruct (export.nonEmpty (export.SQL conf)) eqn:Hsql;
      intro H; injection H as <-.
    + apply (Hcsv_again (export.setFileType conf _)).
    + now apply (Hsql_again (export.setFileType conf _)).
  - destruct (String.eqb_spec (export.ToLower (export.FileType conf))
                export.FileFormatSQLTextString) as [Hs | Hs].
    + destruct (export.nonEmpty (export.SQL conf)) eqn:Hsql; [discriminate |].
      intro H; injection H as <-. rewrite Hs.
      now apply (Hsql_again conf).
    + destruct (String.eqb_spec (export.ToLower (export.FileType conf))
                  export.FileFormatCSVString) as [Hc | Hc]; [| discriminate].
      intro H; injection H as <-. rewrite Hc.
      apply (Hcsv_again conf).
Qed.
(** [adjustFileFormat] writes [FileType] only, error or not. *)
Lemma adjustFileFormat_keeps_query (conf : export.Config) :
  export.SQL (export.adjustFileFormat conf).1 = export.SQL conf /\
  export.Where (export.adjustFileFormat conf).1 = export.Where conf.
Proof.
  unfold export.adjustFileFormat. simpl.
  repeat match goal with
         | |- context [if ?b then _ else _] => destruct b
         end; simpl; auto.
Qed.

(** X24.  The check of the SQL statement and the adjustment of the file
    format can be run in either order as far as acceptance goes:
    [adjustConfig] accepts the configuration in one order exactly when it
    accepts it in the other, and then both orders leave the same
    configuration.  Nothing is said of the error or of the configuration
    left when the configuration is rejected. *)
Theorem validate_adjust_either_order (conf : export.Config) :
  (forall conf' : export.Config,
     export.adjustConfig conf [export.validateSpecifiedSQL; export.adjustFileFormat] =
       (conf', None) <->
     export.adjustConfig conf [export.adjustFileFormat; export.validateSpecifiedSQL] =
       (conf', None)) /\
  ((export.adjustConfig conf
      [export.validateSpecifiedSQL; export.adjustFileFormat]).2 = None <->
   (export.adjustConfig conf
      [export.adjustFileFormat; export.validateSpecifiedSQL]).2 = None).
Proof.
  destruct (adjustFileFormat_keeps_query conf) as (Hsql & Hwhere).
  unfold export.adjustConfig, export.validateSpecifiedSQL.
  destruct (export.adjustFileFormat conf) as [conf1 [err |]] eqn:Hrun;
    simpl in Hsql, Hwhere; rewrite ?Hsql, ?Hwhere;
    destruct (export.nonEmpty (export.SQL conf) && export.nonEmpty (export.Where conf));
    rewrite ?Hrun; simpl; split; try intro conf'; split; intro H;
    try discriminate H; exact H.
Qed.
End AdjustFileFormat.

(** ** The parsers *)

(** X16.  Whatever the string, the dialect that [ParseOutputDialect]
    returns, beside an error or not, has a binary format in
    [DialectBinaryFormatMap]. *)
Theorem ParseOutputDialect_has_binary_format (outputDialect : string) :
  exists format : export.BinaryFormat,
    export.DialectBinaryFormatMap !! (export.ParseOutputDialect outputDialect).1 =
    Some format.
Proof.
  unfold export.ParseOutputDialect.
  repeat match goal with
         | |- context [if ?b then _ else _] => destruct b
         end; simpl; eexists; reflexivity.
Qed.

Lemma digitOf_range (c : ascii) (d : Z) :
  strconv.digitOf c = Some d -> 0 <= d <= 9.
Proof.
  unfold strconv.digitOf.
  destruct (48 <=? Z.of_N (N_of_ascii c)) eqn:Hlo; simpl; [| discriminate].
  destruct (Z.of_N (N_of_ascii c) <=? 57) eqn:Hhi; [| discriminate].
  intro H. injection H as <-. lia.
Qed.

Lemma decimalValue_ge (s : string) :
  forall acc v, 0 <= acc -> decimalValue s acc = Some v -> acc <= v.
Proof.
  induction s as [| c rest IH]; intros acc v Hacc; simpl.
  - intro H. injection H as <-. lia.
  - destruct (strconv.digitOf c) as [d |] eqn:Hd; [| discriminate].
    apply digitOf_range in Hd. intro H.
    apply IH in H; lia.
Qed.

(** The loop of [ParseUint] reads the decimal value, and accepts it exactly
    when it fits in 64 bits. *)
Lemma parseUintLoop_spec (s : string) :
  forall n v,
    0 <= n <= strconv.MaxUint64 ->
    (strconv.parseUintLoop s n = inl v <->
     decimalValue s n = Some v /\ v <= strconv.MaxUint64).
Proof.
  unfold strconv.MaxUint64.
  induction s as [| c rest IH]; intros n v Hn; simpl.
  - split.
    + intro H. injection H as <-. split; [reflexivity | lia].
    + intros [H _]. now injection H as <-.
  - destruct (strconv.digitOf c) as [d |] eqn:Hd.
    2: { split; [discriminate | intros [H _]; discriminate]. }
    pose proof (digitOf_range c d Hd) as Hdr.
    unfold strconv.MaxUint64, strconv.uint64_wrap.
    destruct (Z.leb_spec ((2 ^ 64 - 1) / 10 + 1) n) as [Hcut | Hcut].
    { split; [discriminate |]. intros [H Hv].
      apply decimalValue_ge in H; [| lia].
      change ((2 ^ 64 - 1) / 10 + 1) with 1844674407370955162 in Hcut. lia. }
    change ((2 ^ 64 - 1) / 10 + 1) with 1844674407370955162 in Hcut.
    rewrite (Z.mod_small (n * 10)) by lia.
    destruct (Z_lt_le_dec (n * 10 + d) (2 ^ 64)) as [Hfit | Hover].
    + rewrite (Z.mod_small (n * 10 + d)) by lia.
      destruct (Z.ltb_spec (n * 10 + d) (n * 10)) as [? | _]; [lia |].
      destruct (Z.ltb_spec (2 ^ 64 - 1) (n * 10 + d)) as [? | _]; [lia |].
      simpl. apply IH. lia.
    + replace ((n * 10 + d) mod 2 ^ 64) with (n * 10 + d - 2 ^ 64).
      2: { replace (n * 10 + d) with (n * 10 + d - 2 ^ 64 + 1 * 2 ^ 64) at 2 by lia.
           rewrite Z.mod_add by lia. now rewrite Z.mod_small by lia. }
      destruct (Z.ltb_spec (n * 10 + d - 2 ^ 64) (n * 10)) as [_ | ?]; [| lia].
      simpl. split; [discriminate |]. intros [H Hv].
      apply decimalValue_ge in H; lia.
Qed.

Section ParseFileSize.
Context {E : export.Externals}.

(** X17.  For a non-empty string of decimal digits whose value fits in 64
    bits, [ParseFileSize] returns the value times 2^20 modulo 2^64,
    without an error and after a warning; so a value that is a multiple
    of 2^44 is read as [UnspecifiedSize]. *)
Theorem ParseFileSize_plain_number (fileSizeStr : string) (v : Z) :
  fileSizeStr <> EmptyString ->
  decimalValue fileSizeStr 0 = Some v ->
  v <= strconv.MaxUint64 ->
  export.ParseFileSize fileSizeStr =
    (((v * 2 ^ 20) mod 2 ^ 64, None), [export.WarnNoUnit v]) /\
  ((2 ^ 44 | v) ->
   (export.ParseFileSize fileSizeStr).1 = (export.UnspecifiedSize, None)).
Proof.
  intros Hne Hval Hfit.
  assert (Hparse : strconv.ParseUint fileSizeStr = inl v).
  { unfold strconv.ParseUint. destruct fileSizeStr as [| c rest]; [congruence |].
    apply parseUintLoop_spec; [unfold strconv.MaxUint64; lia | auto]. }
  assert (Hrun : export.ParseFileSize fileSizeStr =
                 (((v * 2 ^ 20) mod 2 ^ 64, None), [export.WarnNoUnit v])).
  { unfold export.ParseFileSize. rewrite Hparse.
    destruct fileSizeStr as [| c rest]; [congruence |]. reflexivity. }
  split; [exact Hrun |].
  intros [k ->]. rewrite Hrun. simpl. unfold export.UnspecifiedSize.
  replace (k * 2 ^ 44 * 2 ^ 20) with (k * 2 ^ 64) by lia.
  now rewrite Z.mod_mul by lia.
Qed.
End ParseFileSize.

(** ** The list of tables *)

Lemma cutDot_join (s front back : string) :
  strings_.cutDot s = Some (front, back) -> s = front +:+ "." +:+ back.
Proof.
  revert front. induction s as [| c rest IH]; intro front; simpl; [discriminate |].
  destruct (Ascii.eqb_spec c ".") as [-> | Hc].
  - intro H. now injection H as <- <-.
  - destruct (strings_.cutDot rest) as [[b a] |] eqn:Hrest; [| discriminate].
    intro H. injection H as <- <-.
    change (String c rest = String c (b +:+ "." +:+ a)).
    f_equal. now apply IH.
Qed.

Lemma cutDot_front (s front back : string) :
  strings_.cutDot s = Some (front, back) -> strings_.cutDot front = None.
Proof.
  revert front. induction s as [| c rest IH]; intro front; simpl; [discriminate |].
  destruct (Ascii.eqb_spec c ".") as [-> | Hc].
  - intro H. now injection H as <- <-.
  - destruct (strings_.cutDot rest) as [[b a] |] eqn:Hrest; [| discriminate].
    intro H. injection H as <- <-. simpl.
    destruct (Ascii.eqb_spec c ".") as [? | _]; [congruence |].
    now rewrite (IH b eq_refl).
Qed.

(** The loop of [GetConfTables], by what it has read and what is left. *)
Lemma getConfTablesLoop_ok (tablesList : list string) :
  forall acc : gmap string (list export.TableInfo),
    (forall s, In s tablesList -> strings_.cutDot s <> None) ->
    exists dbTables,
      export.getConfTablesLoop tablesList acc = (Some dbTables, None) /\
      forall db, default [] (dbTables !! db) =
                 default [] (acc !! db) ++ map baseTable (tablesOf db tablesList).
Proof.
  induction tablesList as [| table rest IH]; intros acc Hdots; simpl.
  - exists acc. split; [reflexivity |]. intro db. now rewrite app_nil_r.
  - unfold strings_.SplitN_dot_2.
    destruct (strings_.cutDot table) as [[dbName tbName] |] eqn:Hcut.
    2: { exfalso. apply (Hdots table); [now left | exact Hcut]. }
    destruct (IH (<[dbName := default [] (acc !! dbName) ++ [baseTable tbName]]> acc))
      as (dbTables & Hrun & Hcontent).
    { intros s Hs. apply Hdots. now right. }
    exists dbTables. split; [exact Hrun |].
    intro db. rewrite Hcontent.
    destruct (String.eqb_spec dbName db) as [-> | Hne].
    + rewrite lookup_insert_eq. simpl. now rewrite <- app_assoc.
    + now rewrite lookup_insert_ne.
Qed.

Lemma getConfTablesLoop_fail (pre : list string) :
  forall (acc : gmap string (list export.TableInfo)) (s : string) (post : list string),
    (forall x, In x pre -> strings_.cutDot x <> None) ->
    strings_.cutDot s = None ->
    export.getConfTablesLoop (pre ++ s :: post) acc = (None, export.lacksDot s).
Proof.
  induction pre as [| table rest IH]; intros acc s post Hpre Hs; simpl.
  - unfold strings_.SplitN_dot_2. now rewrite Hs.
  - unfold strings_.SplitN_dot_2.
    destruct (strings_.cutDot table) as [[dbName tbName] |] eqn:Hcut.
    2: { exfalso. apply (Hpre table); [now left | exact Hcut]. }
    apply IH; [| exact Hs]. intros x Hx. apply Hpre. now right.
Qed.

(** A list splits at its first entry without a dot, if it has one. *)
Lemma first_without_dot (l : list string) :
  (forall s, In s l -> strings_.cutDot s <> None) \/
  exists pre s post,
    l = pre ++ s :: post /\
    (forall x, In x pre -> strings_.cutDot x <> None) /\
    strings_.cutDot s = None.
Proof.
  induction l as [| a l IH].
  - left. intros s [].
  - destruct (strings_.cutDot a) as [p |] eqn:Ha.
    + destruct IH as [Hall | (pre & s & post & -> & Hpre & Hs)].
      * left. intros s [<- | Hin]; [congruence | now apply Hall].
      * right. exists (a :: pre), s, post.
        split; [reflexivity |]. split; [| exact Hs].
        intros x [<- | Hin]; [congruence | now apply Hpre].
    + right. exists [], a, l.
      split; [reflexivity |]. split; [| exact Ha]. intros x [].
Qed.

(** X18.  [GetConfTables] succeeds exactly when every entry of the list
    has a dot; otherwise it returns no map, and its error names the first
    entry without a dot. *)
Theorem GetConfTables_error (tablesList : list string) :
  ((exists dbTables, export.GetConfTables tablesList = (Some dbTables, None)) <->
   (forall s, In s tablesList -> strings_.cutDot s <> None)) /\
  (forall pre s post,
     tablesList = pre ++ s :: post ->
     (forall x, In x pre -> strings_.cutDot x <> None) ->
     strings_.cutDot s = None ->
     export.GetConfTables tablesList = (None, export.lacksDot s)).
Proof.
  split.
  - split.
    + intros [dbTables Hrun].
      destruct (first_without_dot tablesList)
        as [Hall | (pre & s & post & -> & Hpre & Hs)]; [exact Hall |].
      unfold export.GetConfTables in Hrun.
      rewrite (getConfTablesLoop_fail pre ∅ s post Hpre Hs) in Hrun.
      discriminate Hrun.
    + intro Hall. destruct (getConfTablesLoop_ok tablesList ∅ Hall)
        as (dbTables & Hrun & _). now exists dbTables.
  - intros pre s post -> Hpre Hs. now apply getConfTablesLoop_fail.
Qed.

(** X19.  When [GetConfTables] succeeds, a database is a key of the map
    exactly when the list names a table of it, and its entry is the
    tables the list gives for it, in the order listed and with the
    repetitions of the list, each a base table with an average row length
    of 0. *)
Theorem GetConfTables_content
    (tablesList : list string) (dbTables : gmap string (list export.TableInfo)) :
  export.GetConfTables tablesList = (Some dbTables, None) ->
  forall db,
    dbTables !! db =
    match tablesOf db tablesList with
    | [] => None
    | names => Some (map baseTable names)
    end.
Proof.
  intros Hrun db.
  assert (Hall : forall s, In s tablesList -> strings_.cutDot s <> None).
  { destruct (first_without_dot tablesList)
      as [Hall | (pre & s & post & -> & Hpre & Hs)]; [exact Hall |].
    unfold export.GetConfTables in Hrun.
    rewrite (getConfTablesLoop_fail pre ∅ s post Hpre Hs) in Hrun.
    discriminate Hrun. }
  assert (Hkeys : forall (l : list string) (acc res : gmap string (list export.TableInfo)),
            export.getConfTablesLoop l acc = (Some res, None) ->
            (forall d ts, acc !! d = Some ts -> ts <> []) ->
            (forall d, tablesOf d l = [] -> res !! d = acc !! d) /\
            (forall d ts, res !! d = Some ts -> ts <> [])).
  { induction l as [| table rest IH]; intros acc res; simpl.
    - intros H Hacc. injection H as <-. split; auto.
    - unfold strings_.SplitN_dot_2.
      destruct (strings_.cutDot table) as [[dbName tbName] |] eqn:Hcut;
        [| discriminate].
      intros H Hacc.
      destruct (IH _ _ H) as (Hsame & Hne).
      { intros d ts. destruct (String.eqb_spec dbName d) as [-> | Hd].
        - rewrite lookup_insert_eq. intro Heq. injection Heq as <-.
          now destruct (default [] (acc !! d)).
        - rewrite lookup_insert_ne by exact Hd. apply Hacc. }
      split; [| exact Hne].
      intros d Hd. destruct (String.eqb_spec dbName d) as [-> | Hdiff].
      + discriminate Hd.
      + rewrite (Hsame d Hd). now apply lookup_insert_ne. }
  destruct (getConfTablesLoop_ok tablesList ∅ Hall) as (res & Hrun' & Hcontent).
  unfold export.GetConfTables in Hrun. rewrite Hrun' in Hrun.
  injection Hrun as ->.
  destruct (Hkeys tablesList ∅ dbTables Hrun') as (Hsame & Hne).
  { intros d ts Hd. now rewrite lookup_empty in Hd. }
  specialize (Hcontent db). rewrite lookup_empty in Hcontent. simpl in Hcontent.
  destruct (tablesOf db tablesList) as [| name names] eqn:Hnames.
  - rewrite (Hsame db Hnames). apply lookup_empty.
  - destruct (dbTables !! db) as [ts |] eqn:Hdb; simpl in Hcontent.
    + now rewrite Hcontent.
    + discriminate Hcontent.
Qed.

(** The loop of [ParseTableFilter], by what it has read and what is left. *)
Lemma tableNamesLoop_ok (tablesList : list string) :
  forall acc : list export.Table,
    (forall s, In s tablesList -> strings_.cutDot s <> None) ->
    exists tables,
      export.tableNamesLoop tablesList acc = (Some (acc ++ tables), None) /\
      map qualifiedName tables = tablesList /\
      Forall (fun t => strings_.cutDot (export.Schema t) = None) tables.
Proof.
  induction tablesList as [| table rest IH]; intros acc Hdots; simpl.
  - exists []. now rewrite app_nil_r.
  - unfold strings_.SplitN_dot_2.
    destruct (strings_.cutDot table) as [[schema name] |] eqn:Hcut.
    2: { exfalso. apply (Hdots table); [now left | exact Hcut]. }
    destruct (IH (acc ++ [ {| export.Schema := schema; export.TableName := name |} ]))
      as (tables & Hrun & Hnames & Hschemas).
    { intros s Hs. apply Hdots. now right. }
    exists ({| export.Schema := schema; export.TableName := name |} :: tables).
    split; [| split].
    + rewrite Hrun. now rewrite <- app_assoc.
    + simpl. rewrite Hnames. f_equal. unfold qualifiedName. simpl.
      symmetry. now apply cutDot_join.
    + constructor; [| exact Hschemas]. simpl. eapply cutDot_front, Hcut.
Qed.

Lemma tableNamesLoop_fail (pre : list string) :
  forall (acc : list export.Table) (s : string) (post : list string),
    (forall x, In x pre -> strings_.cutDot x <> None) ->
    strings_.cutDot s = None ->
    export.tableNamesLoop (pre ++ s :: post) acc = (None, export.lacksDot s).
Proof.
  induction pre as [| table rest IH]; intros acc s post Hpre Hs; simpl.
  - unfold strings_.SplitN_dot_2. now rewrite Hs.
  - unfold strings_.SplitN_dot_2.
    destruct (strings_.cutDot table) as [[schema name] |] eqn:Hcut.
    2: { exfalso. apply (Hpre table); [now left | exact Hcut]. }
    apply IH; [| exact Hs]. intros x Hx. apply Hpre. now right.
Qed.

Section ParseTableFilter.
Context {F : export.FilterPackage}.

(** X20.  With a list of tables and the default filters,
    [ParseTableFilter] returns the error that [GetConfTables] returns on
    the same list, or none if it returns none: the two agree on which
    lists are malformed and on the entry they blame. *)
Theorem ParseTableFilter_GetConfTables_same_error (tablesList : list string) :
  tablesList <> [] ->
  (export.ParseTableFilter tablesList ["*.*"; export.DefaultTableFilter]).2 =
  (export.GetConfTables tablesList).2.
Proof.
  intro Hne. unfold export.ParseTableFilter, export.GetConfTables.
  destruct tablesList as [| t0 ts]; [congruence |].
  change (List.length (t0 :: ts) =? 0)%nat with false. cbv iota.
  unfold export.stringsEqual. rewrite bool_decide_eq_true_2 by reflexivity.
  cbv [negb]. cbv iota.
  destruct (first_without_dot (t0 :: ts))
    as [Hall | (pre & s & post & -> & Hpre & Hs)].
  - destruct (tableNamesLoop_ok (t0 :: ts) [] Hall) as (tables & -> & _).
    destruct (getConfTablesLoop_ok (t0 :: ts) ∅ Hall) as (dbTables & -> & _).
    reflexivity.
  - rewrite (tableNamesLoop_fail pre [] s post Hpre Hs).
    now rewrite (getConfTablesLoop_fail pre ∅ s post Hpre Hs).
Qed.

(** X21.  When [ParseTableFilter] succeeds on a list of tables, the filter
    is the filter of tables whose qualified names, schema then dot then
    name, are the entries of the list in order, with no dot in a schema:
    an entry is cut at its first dot. *)
Theorem ParseTableFilter_tables_roundtrip
    (tablesList filters : list string) (f : export.Filter) :
  tablesList <> [] ->
  export.ParseTableFilter tablesList filters = (Some f, None) ->
  exists tables,
    f = export.NewTablesFilter tables /\
    map qualifiedName tables = tablesList /\
    Forall (fun t => strings_.cutDot (export.Schema t) = None) tables.
Proof.
  intros Hne. unfold export.ParseTableFilter.
  destruct tablesList as [| t0 ts]; [congruence |].
  change (List.length (t0 :: ts) =? 0)%nat with false. cbv iota.
  destruct (negb (export.stringsEqual filters ["*.*"; export.DefaultTableFilter]));
    [discriminate |].
  destruct (first_without_dot (t0 :: ts))
    as [Hall | (pre & s & post & Heq & Hpre & Hs)].
  - destruct (tableNamesLoop_ok (t0 :: ts) [] Hall) as (tables & -> & Hnames & Hschemas).
    intro H. injection H as <-. now exists tables.
  - rewrite Heq, (tableNamesLoop_fail pre [] s post Hpre Hs). discriminate.
Qed.
End ParseTableFilter.

(** ** Enforcers, through the interface *)

Section EnforcerInterface.
Context {M : physicalop.SortCostModel}.

(** X22.  The property that an offered enforcer relaxes the requirement to
    calls for no enforcer on any group: enforcing is not repeated on the
    child. *)
Theorem relaxed_property_needs_no_enforcer
    (g g' : memo.Group) (prop : property.PhysicalProperty) (e : old.Enforcer) :
  In e (old.GetEnforcerRules g prop) ->
  old.GetEnforcerRules g' (old.NewProperty e prop) = [].
Proof.
  rewrite !GetEnforcerRules_cases.
  destruct (memo.EngineType g), (property.SortItems prop); simpl;
    try contradiction.
  intros [<- | []]. simpl. now destruct (memo.EngineType g').
Qed.

(** X23.  An enforcer that [GetEnforcerRules] offers for a requirement
    builds, over any child, a sort that has at least one sort key, as many
    as the requirement has sort items, and that takes its session context,
    its statistics and its query block offset from the plan of the child,
    which is its only child. *)
Theorem offered_enforcer_builds_a_sort
    (g : memo.Group) (prop : property.PhysicalProperty) (e : old.Enforcer)
    (child : memo.Implementation) :
  In e (old.GetEnforcerRules g prop) ->
  exists impl,
    old.OnEnforce e prop child = Ok impl /\
    sortKeys impl <> [] /\
    List.length (sortKeys impl) = List.length (property.SortItems prop) /\
    physicalop.Children (memo.GetPlan impl) = [memo.GetPlan child] /\
    physicalop.SCtx (memo.GetPlan impl) = physicalop.SCtx (memo.GetPlan child) /\
    physicalop.StatsInfo (memo.GetPlan impl) =
      physicalop.StatsInfo (memo.GetPlan child) /\
    physicalop.QueryBlockOffset (memo.GetPlan impl) =
      physicalop.QueryBlockOffset (memo.GetPlan child).
Proof.
  rewrite GetEnforcerRules_cases.
  destruct (memo.EngineType g), (property.SortItems prop) as [| item items] eqn:Hitems;
    simpl; try contradiction.
  intros [<- | []]. simpl. rewrite OnEnforce_eq. eexists. split; [reflexivity |].
  unfold sortKeys. simpl. rewrite Hitems. simpl.
  repeat split; try discriminate. now rewrite length_map.
Qed.
End EnforcerInterface.

(** * The properties at work *)

Lemma samples_externals_ok : export.ExternalsOk samples.externals.
Proof.
  constructor; simpl; try discriminate; reflexivity.
Qed.

Lemma Consume_Release_roundtrip_witness :
  ingest.int64_range (ingest.currUsage samples.full) /\
  ingest.Release (ingest.Consume samples.full 1) 1 = samples.full.
Proof.
  assert (Hcur : ingest.int64_range (ingest.currUsage samples.full))
    by by_compute.
  split; [exact Hcur |].
  exact (proj1 (Consume_Release_roundtrip samples.full 1 Hcur)).
Defined.

Lemma CheckConsume_exact_witness :
  ingest.int64_range (ingest.currUsage samples.busy + 900) /\
  ingest.currUsage samples.busy + 900 <= ingest.maxLimit samples.busy /\
  ingest.CheckConsume samples.busy 900 = true.
Proof.
  assert (Hsum : ingest.int64_range (ingest.currUsage samples.busy + 900))
    by by_compute.
  assert (Hle : ingest.currUsage samples.busy + 900 <= ingest.maxLimit samples.busy)
    by by_compute.
  split; [exact Hsum |]. split; [exact Hle |].
  exact (proj2 (CheckConsume_exact samples.busy 900 Hsum) Hle).
Defined.

Lemma CheckConsume_overflow_accepts_witness :
  ingest.MaxInt64 < ingest.currUsage samples.full + 1 /\
  0 <= ingest.maxLimit samples.full /\
  ingest.CheckConsume samples.full 1 = true.
Proof.
  assert (Hover : ingest.MaxInt64 < ingest.currUsage samples.full + 1)
    by by_compute.
  assert (Hquota : 0 <= ingest.maxLimit samples.full) by by_compute.
  split; [exact Hover |]. split; [exact Hquota |].
  apply (CheckConsume_overflow_accepts samples.full 1).
  - by_compute.
  - by_compute.
  - exact Hover.
  - exact Hquota.
Defined.

Lemma ConsumeWithTag_ReleaseWithTag_fresh_witness :
  ingest.structSize samples.busy !! "writer" = None /\
  ingest.ReleaseWithTag (ingest.ConsumeWithTag samples.busy "writer" 8) "writer" =
    samples.busy.
Proof.
  assert (Hfresh : ingest.structSize samples.busy !! "writer" = None)
    by reflexivity.
  split; [exact Hfresh |].
  apply (ConsumeWithTag_ReleaseWithTag_fresh samples.busy "writer" 8).
  - by_compute.
  - exact Hfresh.
Defined.

Lemma ReleaseWithTag_missing_witness :
  ingest.structSize samples.busy !! "writer" = None /\
  ingest.ReleaseWithTag samples.busy "writer" = samples.busy.
Proof.
  assert (Hmiss : ingest.structSize samples.busy !! "writer" = None)
    by reflexivity.
  split; [exact Hmiss |].
  apply (ReleaseWithTag_missing samples.busy "writer").
  - by_compute.
  - exact Hmiss.
Defined.

Lemma ReleaseWithTag_effect_witness :
  "engine" <> "writer" /\
  ingest.CurrentUsageWithTag
    (ingest.ReleaseWithTag (ingest.ConsumeWithTag samples.busy "writer" 8) "writer")
    "engine" = 64.
Proof.
  assert (Hne : "engine" <> "writer") by discriminate.
  split; [exact Hne |].
  destruct (ReleaseWithTag_effect
              (ingest.ConsumeWithTag samples.busy "writer" 8) "writer")
    as (_ & Hothers & _).
  rewrite (Hothers "engine" Hne). reflexivity.
Defined.

Lemma ConsumeWithTag_effect_witness :
  ingest.int64_range 8 /\
  ingest.CurrentUsageWithTag (ingest.ConsumeWithTag samples.busy "engine" 8) "engine" =
    72.
Proof.
  assert (Hsize : ingest.int64_range 8) by by_compute.
  split; [exact Hsize |].
  rewrite (proj1 (ConsumeWithTag_effect samples.busy "engine" 8 Hsize)).
  reflexivity.
Defined.

Lemma ReleaseWithTag_then_ConsumeWithTag_witness :
  "writer" <> "engine" /\
  ingest.CurrentUsageWithTag
    (ingest.ConsumeWithTag (ingest.ReleaseWithTag samples.busy "engine") "engine" 10)
    "writer" = 0.
Proof.
  assert (Hne : "writer" <> "engine") by discriminate.
  split; [exact Hne |].
  destruct (ReleaseWithTag_then_ConsumeWithTag samples.busy "engine" 10)
    as (_ & Hothers & _).
  rewrite (Hothers "writer" Hne). reflexivity.
Defined.

Lemma ConsumeWithTag_commute_witness :
  "engine" <> "writer" /\
  ingest.ConsumeWithTag (ingest.ConsumeWithTag samples.busy "engine" 1) "writer" 2 =
  ingest.ConsumeWithTag (ingest.ConsumeWithTag samples.busy "writer" 2) "engine" 1.
Proof.
  assert (Hne : "engine" <> "writer") by discriminate.
  split; [exact Hne |].
  exact (ConsumeWithTag_commute samples.busy "engine" "writer" 1 2 Hne).
Defined.

Lemma usage_is_tagged_plus_untagged_witness :
  ingest.structSize (ingest.run (ingest.NewMemRootImpl 1000) samples.calls) = ∅ /\
  ingest.CurrentUsage (ingest.run (ingest.NewMemRootImpl 1000) samples.calls) = 30.
Proof.
  assert (Hempty : ingest.structSize
                     (ingest.run (ingest.NewMemRootImpl 1000) samples.calls) = ∅)
    by reflexivity.
  split; [exact Hempty |].
  rewrite (proj2 (usage_is_tagged_plus_untagged 1000 samples.calls) Hempty).
  reflexivity.
Defined.

Lemma adjustFileFormat_success_witness :
  @export.adjustFileFormat samples.externals samples.query =
    (samples.queryAdjusted, None) /\
  export.SQL samples.query <> EmptyString /\
  export.FileType samples.queryAdjusted = "csv".
Proof.
  assert (Hrun : @export.adjustFileFormat samples.externals samples.query =
                 (samples.queryAdjusted, None)) by reflexivity.
  assert (Hsql : export.SQL samples.query <> EmptyString) by discriminate.
  split; [exact Hrun |]. split; [exact Hsql |].
  destruct (@adjustFileFormat_success samples.externals
              samples.query samples.queryAdjusted Hrun) as (_ & Hcsv & _).
  exact (Hcsv Hsql).
Defined.

Lemma adjustFileFormat_error_iff_witness :
  export.ExternalsOk samples.externals /\
  (@export.adjustFileFormat samples.externals
     {| export.SQL := "select 1"; export.Where := ""; export.FileType := "SQL" |}).2
  <> None.
Proof.
  split; [exact samples_externals_ok |].
  apply (@adjustFileFormat_error_iff samples.externals _ samples_externals_ok).
  right. split; [reflexivity | discriminate].
Defined.

Lemma adjustFileFormat_idempotent_witness :
  export.ExternalsOk samples.externals /\
  @export.adjustFileFormat samples.externals samples.query =
    (samples.queryAdjusted, None) /\
  @export.adjustFileFormat samples.externals samples.queryAdjusted =
    (samples.queryAdjusted, None).
Proof.
  assert (Hrun : @export.adjustFileFormat samples.externals samples.query =
                 (samples.queryAdjusted, None)) by reflexivity.
  split; [exact samples_externals_ok |]. split; [exact Hrun |].
  exact (@adjustFileFormat_idempotent samples.externals samples.query
           samples.queryAdjusted samples_externals_ok Hrun).
Defined.

Lemma ParseFileSize_plain_number_witness :
  decimalValue "17592186044416" 0 = Some (2 ^ 44) /\
  @export.ParseFileSize samples.externals "17592186044416" =
    ((export.UnspecifiedSize, None), [export.WarnNoUnit (2 ^ 44)]).
Proof.
  assert (Hval : decimalValue "17592186044416" 0 = Some (2 ^ 44)) by reflexivity.
  split; [exact Hval |].
  destruct (@ParseFileSize_plain_number samples.externals
              "17592186044416" (2 ^ 44)) as (Hrun & _).
  - discriminate.
  - exact Hval.
  - by_compute.
  - rewrite Hrun. reflexivity.
Defined.

Lemma GetConfTables_error_witness :
  strings_.cutDot "orders" = None /\
  export.GetConfTables ["shop.items"; "orders"; "staff"] =
    (None, export.lacksDot "orders").
Proof.
  assert (Hs : strings_.cutDot "orders" = None) by reflexivity.
  split; [exact Hs |].
  apply (proj2 (GetConfTables_error ["shop.items"; "orders"; "staff"])
           ["shop.items"] "orders" ["staff"]).
  - reflexivity.
  - intros x [<- | []]. discriminate.
  - exact Hs.
Defined.

Lemma GetConfTables_content_witness :
  export.GetConfTables samples.tables = (Some samples.byDatabase, None) /\
  samples.byDatabase !! "shop" = Some [baseTable "orders"; baseTable "items"] /\
  samples.byDatabase !! "hr" = Some [baseTable "staff.2024"] /\
  samples.byDatabase !! "staff" = None.
Proof.
  assert (Hrun : export.GetConfTables samples.tables =
                 (Some samples.byDatabase, None)) by reflexivity.
  pose proof (GetConfTables_content samples.tables samples.byDatabase Hrun)
    as Hcontent.
  split; [exact Hrun |]. split; [| split].
  - exact (Hcontent "shop").
  - exact (Hcontent "hr").
  - exact (Hcontent "staff").
Defined.

Lemma ParseTableFilter_GetConfTables_same_error_witness :
  ["shop.items"; "orders"] <> [] /\
  (@export.ParseTableFilter samples.filters ["shop.items"; "orders"]
     ["*.*"; export.DefaultTableFilter]).2 = export.lacksDot "orders".
Proof.
  assert (Hne : ["shop.items"; "orders"] <> []) by discriminate.
  split; [exact Hne |].
  rewrite (@ParseTableFilter_GetConfTables_same_error samples.filters
             ["shop.items"; "orders"] Hne).
  reflexivity.
Defined.

Lemma ParseTableFilter_tables_roundtrip_witness :
  samples.tables <> [] /\
  @export.ParseTableFilter samples.filters samples.tables
    ["*.*"; export.DefaultTableFilter] = (Some samples.parsed, None) /\
  map qualifiedName samples.parsed = samples.tables.
Proof.
  assert (Hne : samples.tables <> []) by discriminate.
  assert (Hrun : @export.ParseTableFilter samples.filters samples.tables
                   ["*.*"; export.DefaultTableFilter] = (Some samples.parsed, None))
    by reflexivity.
  split; [exact Hne |]. split; [exact Hrun |].
  destruct (@ParseTableFilter_tables_roundtrip samples.filters samples.tables
              ["*.*"; export.DefaultTableFilter] samples.parsed Hne Hrun)
    as (tables & Heq & Hnames & _).
  change (samples.parsed = tables) in Heq. now rewrite Heq.
Defined.

Lemma relaxed_property_needs_no_enforcer_witness :
  In (@old.orderEnforcer example.linearModel)
     (@old.GetEnforcerRules example.linearModel example.G (example.byAB 10%Q)) /\
  @old.GetEnforcerRules example.linearModel example.Gwide
    (old.NewProperty (@old.orderEnforcer example.linearModel) (example.byAB 10%Q)) = [].
Proof.
  assert (Hin : In (@old.orderEnforcer example.linearModel)
                   (@old.GetEnforcerRules example.linearModel example.G
                      (example.byAB 10%Q))) by (left; reflexivity).
  split; [exact Hin |].
  exact (@relaxed_property_needs_no_enforcer example.linearModel
           example.G example.Gwide (example.byAB 10%Q) _ Hin).
Defined.

Lemma offered_enforcer_builds_a_sort_witness :
  In (@old.orderEnforcer example.linearModel)
     (@old.GetEnforcerRules example.linearModel example.G (example.byAB 10%Q)) /\
  exists impl,
    old.OnEnforce (@old.orderEnforcer example.linearModel)
      (example.byAB 10%Q) example.scanImpl = Ok impl /\
    sortKeys impl <> [].
Proof.
  assert (Hin : In (@old.orderEnforcer example.linearModel)
                   (@old.GetEnforcerRules example.linearModel example.G
                      (example.byAB 10%Q))) by (left; reflexivity).
  split; [exact Hin |].
  destruct (@offered_enforcer_builds_a_sort example.linearModel
              example.G (example.byAB 10%Q) _ example.scanImpl Hin)
    as (impl & Hrun & Hkeys & _).
  exists impl. split; [exact Hrun | exact Hkeys].
Defined.

Lemma validate_adjust_either_order_witness :
  @export.adjustConfig samples.query
    [export.validateSpecifiedSQL; @export.adjustFileFormat samples.externals] =
    (samples.queryAdjusted, None) /\
  @export.adjustConfig samples.query
    [@export.adjustFileFormat samples.externals; export.validateSpecifiedSQL] =
    (samples.queryAdjusted, None).
Proof.
  assert (Hrun : @export.adjustConfig samples.query
                   [export.validateSpecifiedSQL;
                    @export.adjustFileFormat samples.externals] =
                 (samples.queryAdjusted, None)) by reflexivity.
  split; [exact Hrun |].
  exact (proj1 (proj1 (@validate_adjust_either_order samples.externals
                         samples.query) samples.queryAdjusted) Hrun).
Defined.

Lemma adjustConfig_stops_at_first_error_witness :
  export.adjustConfig samples.twoClauses [export.validateSpecifiedSQL] =
    (samples.twoClauses,
     Some "can't specify both --sql and --where at the same time. Please try to combine them into --sql") /\
  export.adjustConfig samples.twoClauses
    [export.validateSpecifiedSQL; @export.adjustFileFormat samples.externals] =
    (samples.twoClauses,
     Some "can't specify both --sql and --where at the same time. Please try to combine them into --sql").
Proof.
  assert (Hrun : export.adjustConfig samples.twoClauses [export.validateSpecifiedSQL] =
                 (samples.twoClauses,
                  Some "can't specify both --sql and --where at the same time. Please try to combine them into --sql"))
    by reflexivity.
  split; [exact Hrun |].
  destruct (adjustConfig_stops_at_first_error samples.twoClauses)
    as (_ & _ & Hstop & _).
  exact (Hstop [export.validateSpecifiedSQL]
               [@export.adjustFileFormat samples.externals] _ _ Hrun).
Defined.
